(** * TypeChecker: a shallow embedding of [src/TypeChecker.py]

    The checker is an ANTLR visitor over a parse tree.  It threads three
    pieces of mutable state (symbol table, used-variable set, inheritance
    map) through every visit method, prints diagnostics, and aborts on the
    first raised exception.  The embedding keeps that shape: a state and
    error monad over a record for the instance attributes, one definition
    per visit method, and one recursive [visit] that dispatches on the kind
    of parse-tree node. *)

From Equations Require Import Equations.
From stdpp Require Import base decidable option list strings gmap pretty.
From Stdlib Require Import Ascii String.

Local Open Scope string_scope.
Local Open Scope list_scope.

(** ** Python values *)

(** A symbol-table entry, the dict [{"type": var_type, "line": line}]. *)
Record entry : Type := Entry { type : string; line : option nat }.

(** The values that flow through the checker: [None], a [str], a symbol
    table entry (a [dict]) and a parse-tree context object, which is only
    ever compared by identity; its label stands for that identity. *)
Inductive pyval : Type :=
| PyNone
| PyStr (s : string)
| PyDict (e : entry)
| PyCtx (label : string).

(** What a visit method returns: [None] or a type name. *)
Definition pytype : Type := option string.

Definition py_of (t : pytype) : pyval :=
  match t with
  | Some s => PyStr s
  | None => PyNone
  end.

#[global] Instance entry_eq_dec : EqDecision entry.
Proof. solve_decision. Defined.

#[global] Instance pyval_eq_dec : EqDecision pyval.
Proof. solve_decision. Defined.

(** Python's [==] on these values: structural on [None], strings and
    dicts, identity on objects, and [False] across kinds. *)
Definition py_eq (a b : pyval) : bool := bool_decide (a = b).

(** [str(v)] as an f-string interpolates it. *)
Definition str_of_line (l : option nat) : string :=
  match l with
  | Some n => pretty n
  | None => "None"
  end.

Definition str_of_type (t : pytype) : string :=
  match t with
  | Some s => s
  | None => "None"
  end.

(** ** Source positions *)

(** The start token of a context; [ctx.start] may be [None]. *)
Record token : Type := Token { tok_line : nat; tok_column : nat }.

Definition get_line_info (start : option token) : option nat * option nat :=
  (tok_line <$> start, tok_column <$> start).

(** ** Diagnostics *)

(** One constructor per [raise] statement of the source, carrying the values
    its message interpolates, plus the two run-time errors of the Python
    interpreter that the code can trigger. *)
Inductive error : Type :=
| CannotShowNone (line col : option nat)
| MissingSigil (var_name : string) (line col : option nat)
| BadIdentifier (var_name : string) (line col : option nat)
| VariableRedeclared (var_name : string)
| InitializerMismatch (init_type : pytype) (var_type var_name : string)
    (line col : option nat)
| AssignmentUndeclared (var_name : string) (line col : option nat)
| AssignmentMismatch (expr_type : pytype) (declared_type : pyval)
    (var_name : string) (line col : option nat)
| MethodRedeclared (method_name : string) (line col : option nat)
| ReturnMismatch (line col : option nat) (return_type : string)
    (return_expr_type : pytype)
| ClassRedeclared (class_name : string) (line col : option nat)
| AdditiveMismatch (line col : option nat) (left_type right_type : pytype)
| MultiplicativeMismatch (line col : option nat)
    (left_type right_type : pytype)
| TermUndeclared (var_name : string) (line col : option nat)
| UnsupportedTerm (text : string)
| UnsupportedLiteral (text : string)
| AttributeError (object attribute : string)
| TypeError (message : string).

(** The error taxonomy of the specification. *)
Inductive error_kind : Type :=
| InvalidNameError
| RedeclarationError
| UndeclaredVariableError
| TypeMismatchError
| InvalidOperationError
| UnsupportedConstructError
| InterpreterError.

Definition kind_of (e : error) : error_kind :=
  match e with
  | CannotShowNone _ _ => InvalidOperationError
  | MissingSigil _ _ _ | BadIdentifier _ _ _ => InvalidNameError
  | VariableRedeclared _ | MethodRedeclared _ _ _ | ClassRedeclared _ _ _ =>
      RedeclarationError
  | AssignmentUndeclared _ _ _ | TermUndeclared _ _ _ =>
      UndeclaredVariableError
  | InitializerMismatch _ _ _ _ _ | AssignmentMismatch _ _ _ _ _
  | ReturnMismatch _ _ _ _ | AdditiveMismatch _ _ _ _
  | MultiplicativeMismatch _ _ _ _ => TypeMismatchError
  | UnsupportedTerm _ | UnsupportedLiteral _ => UnsupportedConstructError
  | AttributeError _ _ | TypeError _ => InterpreterError
  end.

(** What [print] writes: the placeholder of a show statement and the
    unused-variable warning. *)
Inductive printed : Type :=
| Output (expr_type : pytype)
| UnusedWarning (var : string) (line : option nat).

Definition render (p : printed) : string :=
  match p with
  | Output t => "Output: " ++ str_of_type t
  | UnusedWarning var l =>
      "Warning: Variable '" ++ var ++ "' declared at line " ++ str_of_line l
      ++ " is declared but never used."
  end.

(** ** Insertion-ordered dictionaries

    A Python [dict] iterates in insertion order, and storing under a key
    that is already present keeps the key's position. *)
Module Dict.

Abbreviation t := (list (string * entry)).

Fixpoint get (k : string) (d : t) : option entry :=
  match d with
  | [] => None
  | (k', v) :: d' => if decide (k = k') then Some v else get k d'
  end.

Definition mem (k : string) (d : t) : bool :=
  match get k d with
  | Some _ => true
  | None => false
  end.

Fixpoint set (k : string) (v : entry) (d : t) : t :=
  match d with
  | [] => [(k, v)]
  | (k', v') :: d' =>
      if decide (k = k') then (k, v) :: d' else (k', v') :: set k v d'
  end.

Definition keys (d : t) : list string := d.*1.

End Dict.

(** ** The checker's state *)

(** The instance attributes.  [inheritance_map] is [None] while the
    attribute does not exist on the object; its values are what
    [ctx.classDeclaration().inherit()] returned, a context object or
    [None]. *)
Record state : Type := State {
  symbol_table : Dict.t;
  used_variables : gset string;
  inheritance_map : option (gmap string (option string));
  stdout : list printed
}.

(** [TypeChecker.__init__]: the symbol table and the used set are created;
    no [inheritance_map] attribute is. *)
Definition init : state :=
  {| symbol_table := [];
     used_variables := ∅;
     inheritance_map := None;
     stdout := [] |}.

Definition with_symbol (k : string) (v : entry) (st : state) : state :=
  {| symbol_table := Dict.set k v (symbol_table st);
     used_variables := used_variables st;
     inheritance_map := inheritance_map st;
     stdout := stdout st |}.

Definition with_used (k : string) (st : state) : state :=
  {| symbol_table := symbol_table st;
     used_variables := {[ k ]} ∪ used_variables st;
     inheritance_map := inheritance_map st;
     stdout := stdout st |}.

Definition with_parent (k : string) (v : option string)
    (m : gmap string (option string)) (st : state) : state :=
  {| symbol_table := symbol_table st;
     used_variables := used_variables st;
     inheritance_map := Some (<[ k := v ]> m);
     stdout := stdout st |}.

Definition with_print (p : printed) (st : state) : state :=
  {| symbol_table := symbol_table st;
     used_variables := used_variables st;
     inheritance_map := inheritance_map st;
     stdout := stdout st ++ [p] |}.

(** ** The monad: state that survives a raised exception *)

Definition M (A : Type) : Type := state -> (error + A) * state.

Definition ret {A} (a : A) : M A := fun st => (inr a, st).

Definition raise {A} (e : error) : M A := fun st => (inl e, st).

Definition bind {A B} (c : M A) (k : A -> M B) : M B :=
  fun st =>
    match c st with
    | (inr a, st') => k a st'
    | (inl e, st') => (inl e, st')
    end.

Definition get_state : M state := fun st => (inr st, st).

Definition modify (f : state -> state) : M unit := fun st => (inr tt, f st).

Declare Scope checker_scope.
Delimit Scope checker_scope with checker.
Notation "x <- c ;; k" := (bind c (fun x => k))
  (at level 100, c at next level, right associativity) : checker_scope.
Notation "c ;; k" := (bind c (fun _ => k))
  (at level 100, right associativity) : checker_scope.
Local Open Scope checker_scope.

Definition print (p : printed) : M unit := modify (with_print p).

(** [markVariableAsUsed] *)
Definition markVariableAsUsed (var_name : string) : M unit :=
  modify (with_used var_name).

(** ** Name validation *)

Definition is_letter_or_underscore (c : ascii) : bool :=
  let n := nat_of_ascii c in
  ((65 <=? n) && (n <=? 90) || (97 <=? n) && (n <=? 122) || (n =? 95))%nat.

Definition is_word_char (c : ascii) : bool :=
  let n := nat_of_ascii c in
  is_letter_or_underscore c || ((48 <=? n) && (n <=? 57))%nat.

(** [[a-zA-Z0-9_]*$] against the rest of the string.  Python's [$] matches
    at the end of the string and also just before a newline that ends
    it. *)
Fixpoint word_chars_to_end (s : string) : bool :=
  match s with
  | EmptyString => true
  | String c EmptyString => is_word_char c || (nat_of_ascii c =? 10)%nat
  | String c s' => is_word_char c && word_chars_to_end s'
  end.

(** [self.valid_variable_pattern.match(s)] for the pattern
    [^[a-zA-Z_][a-zA-Z0-9_]*$], as a truth value. *)
Definition valid_variable_pattern (s : string) : bool :=
  match s with
  | EmptyString => false
  | String c s' => is_letter_or_underscore c && word_chars_to_end s'
  end.

(** [s.startswith('$')] *)
Definition startswith_sigil (s : string) : bool :=
  match s with
  | String c _ => (nat_of_ascii c =? 36)%nat
  | EmptyString => false
  end.

(** [s[1:]] *)
Definition drop_first (s : string) : string :=
  match s with
  | String _ s' => s'
  | EmptyString => EmptyString
  end.

(** ** Type compatibility *)

(** [self.inheritance_map.get(key, None)].  The keys of the map are
    strings; [None] and context objects hash but are never keys; a dict
    does not hash. *)
Definition inheritance_get (m : gmap string (option string)) (key : pyval)
    : error + pyval :=
  match key with
  | PyStr s =>
      inr match m !! s with
          | Some (Some c) => PyCtx c
          | _ => PyNone
          end
  | PyDict _ => inl (TypeError "unhashable type: 'dict'")
  | PyNone | PyCtx _ => inr PyNone
  end.

(** How far a value can still be from the end of a chain: a stored parent
    is a context object or [None], and a context object is not a key. *)
Definition chain_rank (v : pyval) : nat :=
  match v with
  | PyNone => 0
  | PyCtx _ => 1
  | PyStr _ | PyDict _ => 2
  end.

Definition inspect {A} (a : A) : {b : A | a = b} := exist _ a eq_refl.

(** The [while current_type is not None] loop of [is_type_compatible]. *)
Equations walk_chain (m : gmap string (option string))
    (declared_type current_type : pyval) : error + bool
    by wf (chain_rank current_type) lt :=
  walk_chain m declared_type PyNone := inr false;
  walk_chain m declared_type current_type
    with py_eq current_type declared_type := {
    | true := inr true
    | false with inspect (inheritance_get m current_type) := {
        | exist _ (inl e) _ := inl e
        | exist _ (inr next) Hnext := walk_chain m declared_type next } }.
Next Obligation.
  intros m _ s next Hnext _ _. simpl in Hnext. injection Hnext as <-.
  destruct (m !! s) as [[c|]|]; simpl; lia.
Defined.
Next Obligation.
  intros m _ e next Hnext _ _. discriminate Hnext.
Defined.
Next Obligation.
  intros m _ c next Hnext _ _. simpl in Hnext. injection Hnext as <-.
  simpl. lia.
Defined.

(** [key in self.inheritance_map] *)
Definition inheritance_mem (m : gmap string (option string)) (key : pyval)
    : error + bool :=
  match key with
  | PyStr s => inr (bool_decide (is_Some (m !! s)))
  | PyDict _ => inl (TypeError "unhashable type: 'dict'")
  | PyNone | PyCtx _ => inr false
  end.

Definition lift {A} (r : error + A) : M A := fun st => (r, st).

(** Reading [self.inheritance_map]. *)
Definition read_inheritance_map : M (gmap string (option string)) :=
  st <- get_state ;;
  match inheritance_map st with
  | Some m => ret m
  | None => raise (AttributeError "TypeChecker" "inheritance_map")
  end.

Definition is_type_compatible (declared_type expr_type : pyval) : M bool :=
  if py_eq declared_type expr_type then ret true
  else
    m <- read_inheritance_map ;;
    known <- lift (inheritance_mem m declared_type) ;;
    if known : bool then lift (walk_chain m declared_type expr_type)
    else ret false.

(** ** Parse trees

    The grammar and the generated parser are not part of the sources; a node
    records what the accessors that the checker calls on it return.  One
    constructor per context class that the checker overrides a visit method
    for, [RuleContext] for every other rule (the generated visitor's method
    for it is [visitChildren]) and [TerminalNode] for tokens. *)
#[warnings="-register-all"]
Inductive tree : Type :=
| TerminalNode
| RuleContext (children : list tree)
| ProgramContext (statement : list tree)
| ShowStatementContext (start : option token) (expression : tree)
| VariableDeclarationContext (start : option token)
    (variableName type_ : string)
    (expression createClassStatement : option tree)
| AssignmentContext (start : option token) (variableName : string)
    (expression : tree)
| MethodDeclarationContext (start : option token)
    (methodName return_type : string)
    (parametersInit : list (string * string))
    (methodBlock : tree)
    (returnStatement : option (option token * tree))
| ClassDeclarationContext (start : option token) (className : string)
    (inherit parentClass : option string)
    (variableSignature : list (string * string))
    (methodDeclaration : list tree)
| ExpressionContext (additiveExpression : tree)
| AdditiveExpressionContext (start : option token)
    (multiplicativeExpression : list tree)
| MultiplicativeExpressionContext (start : option token) (term : list tree)
| TermContext (start : option token) (variableName : option string)
    (literal classVariableAccess classMethodAccess expression : option tree)
    (text : string)
| LiteralContext (chunkLiteral fractionLiteral stringLiteral : bool)
    (text : string).

(** ** The visit methods, over the dispatching [visit] *)

Section Visitor.

Variable visit : tree -> M pytype.

(** The generated visitor's default: visit every child, keep the last
    result, [None] when there is none. *)
Fixpoint visitChildren_from (result : pytype) (children : list tree)
    : M pytype :=
  match children with
  | [] => ret result
  | c :: cs => r <- visit c ;; visitChildren_from r cs
  end.

Definition visitChildren (children : list tree) : M pytype :=
  visitChildren_from None children.

Fixpoint visit_each (statements : list tree) : M unit :=
  match statements with
  | [] => ret tt
  | s :: rest => visit s ;; visit_each rest
  end.

(** The sweep over [self.symbol_table.items()]. *)
Fixpoint warn_unused (items : list (string * entry)) : M unit :=
  match items with
  | [] => ret tt
  | (var, info) :: rest =>
      st <- get_state ;;
      (if decide (var ∈ used_variables st) then ret tt
       else print (UnusedWarning var (line info))) ;;
      warn_unused rest
  end.

Definition visitProgram (statement : list tree) : M pytype :=
  visit_each statement ;;
  st <- get_state ;;
  warn_unused (symbol_table st) ;;
  ret None.

Definition visitShowStatement (start : option token) (expression : tree)
    : M pytype :=
  expr_type <- visit expression ;;
  let '(line, col) := get_line_info start in
  if decide (expr_type = Some "none") then raise (CannotShowNone line col)
  else print (Output expr_type) ;; ret None.

Definition visitVariableDeclaration (start : option token)
    (var_name var_type : string)
    (expression createClassStatement : option tree) : M pytype :=
  let '(line, col) := get_line_info start in
  if negb (startswith_sigil var_name) then
    raise (MissingSigil var_name line col)
  else if negb (valid_variable_pattern (drop_first var_name)) then
    raise (BadIdentifier var_name line col)
  else
    st <- get_state ;;
    if Dict.mem var_name (symbol_table st) then
      raise (VariableRedeclared var_name)
    else
      modify (with_symbol var_name (Entry var_type line)) ;;
      match expression, createClassStatement with
      | Some initializer, _ | None, Some initializer =>
          init_type <- visit initializer ;;
          if decide (init_type <> Some var_type) then
            raise (InitializerMismatch init_type var_type var_name line col)
          else ret None
      | None, None => ret None
      end.

Definition visitAssignment (start : option token) (var_name : string)
    (expression : tree) : M pytype :=
  let '(line, col) := get_line_info start in
  st <- get_state ;;
  match Dict.get var_name (symbol_table st) with
  | None => raise (AssignmentUndeclared var_name line col)
  | Some declared_type =>
      modify (with_used var_name) ;;
      expr_type <- visit expression ;;
      compatible <- is_type_compatible (PyDict declared_type)
                      (py_of expr_type) ;;
      if negb compatible then
        raise (AssignmentMismatch expr_type (PyDict declared_type) var_name
                 line col)
      else ret None
  end.

(** [ctx.start.line], which needs the start token. *)
Definition start_line (start : option token) : M nat :=
  match start with
  | Some t => ret (tok_line t)
  | None => raise (AttributeError "NoneType" "line")
  end.

(** The two loops that store signatures in the symbol table unchecked. *)
Fixpoint register_signatures (start : option token)
    (signatures : list (string * string)) : M unit :=
  match signatures with
  | [] => ret tt
  | (var_name, var_type) :: rest =>
      l <- start_line start ;;
      modify (with_symbol var_name (Entry var_type (Some l))) ;;
      register_signatures start rest
  end.

Definition visitMethodDeclaration (start : option token)
    (method_name return_type : string) (parameters : list (string * string))
    (methodBlock : tree) (returnStatement : option (option token * tree))
    : M pytype :=
  register_signatures start parameters ;;
  st <- get_state ;;
  if Dict.mem method_name (symbol_table st) then
    let '(line, col) := get_line_info start in
    raise (MethodRedeclared method_name line col)
  else
    visit methodBlock ;;
    match returnStatement with
    | Some (return_start, return_expression) =>
        return_expr_type <- visit return_expression ;;
        if decide (return_expr_type <> Some return_type) then
          let '(line, col) := get_line_info return_start in
          raise (ReturnMismatch line col return_type return_expr_type)
        else ret None
    | None => ret None
    end.

(** [self.visitMethodDeclaration(method)], called without dispatch. *)
Definition call_visitMethodDeclaration (method : tree) : M pytype :=
  match method with
  | MethodDeclarationContext start name return_type parameters block
      return_statement =>
      visitMethodDeclaration start name return_type parameters block
        return_statement
  | _ => raise (AttributeError "ParserRuleContext" "methodSignature")
  end.

Fixpoint call_each_method (methods : list tree) : M unit :=
  match methods with
  | [] => ret tt
  | m :: rest => call_visitMethodDeclaration m ;; call_each_method rest
  end.

Definition visitClassDeclaration (start : option token) (class_name : string)
    (superclass_name parentClass : option string)
    (fields : list (string * string)) (methods : list tree) : M pytype :=
  st <- get_state ;;
  if Dict.mem class_name (symbol_table st) then
    let '(line, col) := get_line_info start in
    raise (ClassRedeclared class_name line col)
  else
    m <- read_inheritance_map ;;
    modify (with_parent class_name superclass_name m) ;;
    match parentClass with
    | Some parent_class => raise (AttributeError "str" "accept")
    | None => ret tt
    end ;;
    register_signatures start fields ;;
    call_each_method methods ;;
    ret None.

Definition visitExpression (additiveExpression : tree) : M pytype :=
  visit additiveExpression.

(** The promotion step of both binary loops. *)
Definition promote (left_type right_type : pytype) : pytype * pytype :=
  if decide (left_type = Some "chunk" /\ right_type = Some "fraction") then
    (Some "fraction", right_type)
  else if decide (left_type = Some "fraction" /\ right_type = Some "chunk")
  then (left_type, Some "fraction")
  else (left_type, right_type).

Fixpoint fold_operands (mismatch : pytype -> pytype -> error)
    (left_type : pytype) (operands : list tree) : M pytype :=
  match operands with
  | [] => ret left_type
  | operand :: rest =>
      right_type <- visit operand ;;
      let '(left_type, right_type) := promote left_type right_type in
      if decide (left_type <> right_type) then
        raise (mismatch left_type right_type)
      else fold_operands mismatch left_type rest
  end.

Definition visit_binary (mismatch : pytype -> pytype -> error)
    (operands : list tree) : M pytype :=
  match operands with
  | [only] => visit only
  | [] => raise (AttributeError "NoneType" "accept")
  | first :: rest =>
      left_type <- visit first ;;
      fold_operands mismatch left_type rest
  end.

Definition visitAdditiveExpression (start : option token)
    (multiplicativeExpression : list tree) : M pytype :=
  let '(line, col) := get_line_info start in
  visit_binary (AdditiveMismatch line col) multiplicativeExpression.

Definition visitMultiplicativeExpression (start : option token)
    (term : list tree) : M pytype :=
  let '(line, col) := get_line_info start in
  visit_binary (MultiplicativeMismatch line col) term.

Definition visitTerm (start : option token) (variableName : option string)
    (literal classVariableAccess classMethodAccess expression : option tree)
    (text : string) : M pytype :=
  match variableName, literal, classVariableAccess, classMethodAccess,
        expression with
  | Some var_name, _, _, _, _ =>
      st <- get_state ;;
      match Dict.get var_name (symbol_table st) with
      | None =>
          let '(line, col) := get_line_info start in
          raise (TermUndeclared var_name line col)
      | Some info => markVariableAsUsed var_name ;; ret (Some (type info))
      end
  | None, Some child, _, _, _
  | None, None, Some child, _, _
  | None, None, None, Some child, _
  | None, None, None, None, Some child => visit child
  | None, None, None, None, None => raise (UnsupportedTerm text)
  end.

Definition visitLiteral (chunkLiteral fractionLiteral stringLiteral : bool)
    (text : string) : M pytype :=
  if chunkLiteral then ret (Some "chunk")
  else if fractionLiteral then ret (Some "fraction")
  else if stringLiteral then ret (Some "string")
  else raise (UnsupportedLiteral text).

End Visitor.

(** [self.visit(node)]: dispatch on the node's class. *)
Fixpoint visit (node : tree) : M pytype :=
  match node with
  | TerminalNode => ret None
  | RuleContext children => visitChildren visit children
  | ProgramContext statement => visitProgram visit statement
  | ShowStatementContext start expression =>
      visitShowStatement visit start expression
  | VariableDeclarationContext start name type_ expression create =>
      visitVariableDeclaration visit start name type_ expression create
  | AssignmentContext start name expression =>
      visitAssignment visit start name expression
  | MethodDeclarationContext start name return_type parameters block
      return_statement =>
      visitMethodDeclaration visit start name return_type parameters block
        return_statement
  | ClassDeclarationContext start name inherit parent fields methods =>
      visitClassDeclaration visit start name inherit parent fields methods
  | ExpressionContext additive => visitExpression visit additive
  | AdditiveExpressionContext start operands =>
      visitAdditiveExpression visit start operands
  | MultiplicativeExpressionContext start operands =>
      visitMultiplicativeExpression visit start operands
  | TermContext start name literal field_access method_access expression
      text =>
      visitTerm visit start name literal field_access method_access
        expression text
  | LiteralContext chunk fraction string_ text =>
      visitLiteral chunk fraction string_ text
  end.

(** One analysis run: a fresh checker visits the tree. *)
Definition analyse (program : tree) : (error + pytype) * state :=
  visit program init.

(** ** Vocabulary of the properties *)

(** The two name checks of a variable declaration. *)
Definition valid_name (k : string) : bool :=
  startswith_sigil k && valid_variable_pattern (drop_first k).

(** Between two states, every key whose entry differs was absent before and
    has a valid name: the symbol table was only written by insertions that
    pass the declaration checks. *)
Definition checked_writes (st st' : state) : Prop :=
  forall k,
    Dict.get k (symbol_table st') <> Dict.get k (symbol_table st) ->
    Dict.get k (symbol_table st) = None /\ valid_name k = true.

Definition on_option (f : tree -> bool) (o : option tree) : bool :=
  match o with
  | Some t => f t
  | None => true
  end.

(** Trees in which no method declares a parameter and no class declares a
    field, so that nothing is stored in the symbol table unchecked. *)
Fixpoint checked_only (node : tree) : bool :=
  match node with
  | TerminalNode | LiteralContext _ _ _ _ => true
  | RuleContext nodes | ProgramContext nodes
  | AdditiveExpressionContext _ nodes
  | MultiplicativeExpressionContext _ nodes => forallb checked_only nodes
  | ShowStatementContext _ e | AssignmentContext _ _ e
  | ExpressionContext e => checked_only e
  | VariableDeclarationContext _ _ _ e c =>
      on_option checked_only e && on_option checked_only c
  | MethodDeclarationContext _ _ _ parameters block return_statement =>
      match parameters with [] => true | _ :: _ => false end
      && checked_only block
      && match return_statement with
         | Some (_, e) => checked_only e
         | None => true
         end
  | ClassDeclarationContext _ _ _ _ fields methods =>
      match fields with [] => true | _ :: _ => false end
      && forallb checked_only methods
  | TermContext _ _ l a b e _ =>
      on_option checked_only l && on_option checked_only a
      && on_option checked_only b && on_option checked_only e
  end.

(** The warnings of the final sweep, from the state it starts in. *)
Definition unused_warnings (st : state) : list printed :=
  (fun kv => UnusedWarning kv.1 (line kv.2))
    <$> filter (fun kv => kv.1 ∉ used_variables st) (symbol_table st).

Definition print_all (ps : list printed) (st : state) : state :=
  {| symbol_table := symbol_table st;
     used_variables := used_variables st;
     inheritance_map := inheritance_map st;
     stdout := stdout st ++ ps |}.

(** One operand is [chunk] and the other [fraction]. *)
Definition numeric_mix (l r : pytype) : Prop :=
  (l = Some "chunk" /\ r = Some "fraction") \/
  (l = Some "fraction" /\ r = Some "chunk").

(** Every character is a letter, a digit or an underscore. *)
Fixpoint all_word_chars (s : string) : bool :=
  match s with
  | EmptyString => true
  | String c s' => is_word_char c && all_word_chars s'
  end.

(** Trees made of expression nodes only: expressions, binary nodes, terms,
    literals, and the inherited-visit nodes and tokens below them (class
    field and method accesses). *)
Fixpoint expression_only (node : tree) : bool :=
  match node with
  | TerminalNode | LiteralContext _ _ _ _ => true
  | RuleContext nodes
  | AdditiveExpressionContext _ nodes
  | MultiplicativeExpressionContext _ nodes => forallb expression_only nodes
  | ExpressionContext e => expression_only e
  | TermContext _ _ l a b e _ =>
      on_option expression_only l && on_option expression_only a
      && on_option expression_only b && on_option expression_only e
  | ProgramContext _ | ShowStatementContext _ _
  | VariableDeclarationContext _ _ _ _ _ | AssignmentContext _ _ _
  | MethodDeclarationContext _ _ _ _ _ _
  | ClassDeclarationContext _ _ _ _ _ _ => false
  end.

(** A visit that may mark variables used and does nothing else. *)
Definition only_marks_used (st st' : state) : Prop :=
  symbol_table st' = symbol_table st /\
  inheritance_map st' = inheritance_map st /\
  stdout st' = stdout st /\
  used_variables st ⊆ used_variables st'.

(** Every name in the used set is a key of the symbol table. *)
Definition used_are_declared (st : state) : Prop :=
  forall k, k ∈ used_variables st -> Dict.mem k (symbol_table st) = true.

(** Visiting every operand in turn and collecting the inferred types: what
    a binary node has seen when no operand raised and no pair mismatched. *)
Fixpoint visit_operands (operands : list tree) : M (list pytype) :=
  match operands with
  | [] => ret []
  | operand :: rest =>
      t <- visit operand ;;
      ts <- visit_operands rest ;;
      ret (t :: ts)
  end.

Definition is_numeric (t : pytype) : Prop :=
  t = Some "chunk" \/ t = Some "fraction".

(** [fraction] as soon as one of the types is, [chunk] otherwise. *)
Definition widest (types : list pytype) : pytype :=
  if decide (Some "fraction" ∈ types) then Some "fraction" else Some "chunk".

(** The type that a list of signatures gives a name: the one of its last
    signature under that name. *)
Fixpoint signature_type (k : string) (signatures : list (string * string))
    : option string :=
  match signatures with
  | [] => None
  | (name, ty) :: rest =>
      match signature_type k rest with
      | Some t => Some t
      | None => if decide (k = name) then Some ty else None
      end
  end.

(** The statement [name: ty] on line [l], a declaration without
    initializer, for a triple [(name, ty, l)]. *)
Definition bare_declaration (d : string * string * nat) : tree :=
  RuleContext
    [VariableDeclarationContext (Some (Token d.2 0)) d.1.1 d.1.2 None None].

Definition declared_entry (d : string * string * nat) : string * entry :=
  (d.1.1, Entry d.1.2 (Some d.2)).

(** ** Sample parse trees

    The shapes the parser hands over for small programs: an expression made
    of one literal or one variable reference, a statement wrapping its
    single alternative. *)
Module Sample.

Definition at_ (l c : nat) : option token := Some (Token l c).

Definition chunk_literal : tree := LiteralContext true false false "5".
Definition fraction_literal : tree := LiteralContext false true false "2.5".
Definition string_literal : tree := LiteralContext false false true "'a'".

Definition literal_term (l c : nat) (lit : tree) : tree :=
  TermContext (at_ l c) None (Some lit) None None None "".

Definition variable_term (l c : nat) (name : string) : tree :=
  TermContext (at_ l c) (Some name) None None None None name.

(** [expression -> additive -> multiplicative -> term] around one term. *)
Definition expression_of (l c : nat) (t : tree) : tree :=
  ExpressionContext
    (AdditiveExpressionContext (at_ l c)
       [MultiplicativeExpressionContext (at_ l c) [t]]).

Definition multiplicative_of (l c : nat) (t : tree) : tree :=
  MultiplicativeExpressionContext (at_ l c) [t].

Definition statement (s : tree) : tree := RuleContext [s].

(** [$x: chunk = 5] on line 1. *)
Definition declare_x : tree :=
  VariableDeclarationContext (at_ 1 0) "$x" "chunk"
    (Some (expression_of 1 12 (literal_term 1 12 chunk_literal))) None.

(** [$x = 5] on line 2. *)
Definition assign_x : tree :=
  AssignmentContext (at_ 2 0) "$x"
    (expression_of 2 5 (literal_term 2 5 chunk_literal)).

(** [show $x] on line 2. *)
Definition show_x : tree :=
  ShowStatementContext (at_ 2 0)
    (expression_of 2 5 (variable_term 2 5 "$x")).

(** [$y: string = 'a'] on line 3. *)
Definition declare_y : tree :=
  VariableDeclarationContext (at_ 3 0) "$y" "string"
    (Some (expression_of 3 13 (literal_term 3 13 string_literal))) None.

(** A method [name] without parameters, statements or return statement. *)
Definition empty_method (l : nat) (name : string) : tree :=
  MethodDeclarationContext (at_ l 0) name "chunk" [] (RuleContext []) None.

(** A method [m] on line 2 whose only parameter is [$x: string]. *)
Definition method_with_parameter_x : tree :=
  MethodDeclarationContext (at_ 2 0) "m" "chunk" [("$x", "string")]
    (RuleContext []) None.

(** A class [A] without superclass, fields or methods. *)
Definition empty_class : tree :=
  ClassDeclarationContext (at_ 1 0) "A" None None [] [].

(** A checker that already knows [$s: Sub], with an inheritance map in
    which [Base] has no parent and [Sub] has one. *)
Definition with_classes : state :=
  {| symbol_table := [("$s", Entry "Sub" (Some 1))];
     used_variables := ∅;
     inheritance_map := Some {[ "Base" := None; "Sub" := Some "Base" ]};
     stdout := [] |}.

End Sample.

(** * Properties *)

(** ** Dictionaries *)

Lemma dict_get_set k' k v d :
  Dict.get k' (Dict.set k v d) =
  if decide (k' = k) then Some v else Dict.get k' d.
Proof.
  induction d as [| [k0 v0] d IH]; simpl.
  - reflexivity.
  - destruct (decide (k = k0)) as [-> | Hne]; simpl; [| rewrite IH];
      repeat case_decide; subst; congruence.
Qed.

Lemma dict_mem_keys k d : Dict.mem k d = true <-> k ∈ Dict.keys d.
Proof.
  unfold Dict.mem, Dict.keys. induction d as [| [k0 v0] d IH]; simpl.
  - split; [discriminate | intros H; inversion H].
  - rewrite elem_of_cons. destruct (decide (k = k0)) as [-> | Hne].
    + split; auto.
    + rewrite IH. split; [auto | intros [? | ?]; [congruence | assumption]].
Qed.

Lemma dict_keys_set k v d :
  Dict.keys (Dict.set k v d) =
  if Dict.mem k d then Dict.keys d else Dict.keys d ++ [k].
Proof.
  induction d as [| [k0 v0] d IH]; [reflexivity |].
  unfold Dict.mem, Dict.keys in *. cbn [Dict.set Dict.get].
  destruct (decide (k = k0)) as [-> | Hne]; [reflexivity |].
  rewrite fmap_cons, IH. destruct (Dict.get k d); reflexivity.
Qed.

Lemma dict_set_NoDup k v d :
  NoDup (Dict.keys d) -> NoDup (Dict.keys (Dict.set k v d)).
Proof.
  intros Hd. rewrite dict_keys_set.
  destruct (Dict.mem k d) eqn:Hm; [assumption |].
  apply NoDup_app. split; [assumption |]. split; [| apply NoDup_singleton].
  intros x Hx Hk. apply list_elem_of_singleton in Hk as ->.
  apply dict_mem_keys in Hx. congruence.
Qed.

Lemma dict_mem_set k' k v d :
  Dict.mem k' d = true -> Dict.mem k' (Dict.set k v d) = true.
Proof.
  unfold Dict.mem. rewrite dict_get_set.
  destruct (decide (k' = k)); auto.
Qed.

(** ** Induction over parse trees, through the child lists *)

Section TreeInduction.

Variable P : tree -> Prop.

Definition P_option (o : option tree) : Prop :=
  match o with
  | Some t => P t
  | None => True
  end.

Hypothesis P_terminal : P TerminalNode.
Hypothesis P_rule : forall cs, Forall P cs -> P (RuleContext cs).
Hypothesis P_program : forall ss, Forall P ss -> P (ProgramContext ss).
Hypothesis P_show : forall s e, P e -> P (ShowStatementContext s e).
Hypothesis P_declaration : forall s n ty e c,
  P_option e -> P_option c -> P (VariableDeclarationContext s n ty e c).
Hypothesis P_assignment : forall s n e, P e -> P (AssignmentContext s n e).
Hypothesis P_method : forall s n ty ps b rs,
  P b -> P_option (snd <$> rs) -> P (MethodDeclarationContext s n ty ps b rs).
Hypothesis P_class : forall s n i p fs ms,
  Forall P ms -> P (ClassDeclarationContext s n i p fs ms).
Hypothesis P_expression : forall a, P a -> P (ExpressionContext a).
Hypothesis P_additive : forall s ms,
  Forall P ms -> P (AdditiveExpressionContext s ms).
Hypothesis P_multiplicative : forall s ts,
  Forall P ts -> P (MultiplicativeExpressionContext s ts).
Hypothesis P_term : forall s n l a b e txt,
  P_option l -> P_option a -> P_option b -> P_option e ->
  P (TermContext s n l a b e txt).
Hypothesis P_literal : forall c f s txt, P (LiteralContext c f s txt).

Fixpoint tree_nested_ind (t : tree) : P t :=
  let all :=
    fix all (l : list tree) : Forall P l :=
      match l with
      | [] => @List.Forall_nil _ P
      | x :: l' => @List.Forall_cons _ P x l' (tree_nested_ind x) (all l')
      end in
  let opt (o : option tree) : P_option o :=
    match o with
    | Some x => tree_nested_ind x
    | None => I
    end in
  match t with
  | TerminalNode => P_terminal
  | RuleContext cs => P_rule cs (all cs)
  | ProgramContext ss => P_program ss (all ss)
  | ShowStatementContext s e => P_show s e (tree_nested_ind e)
  | VariableDeclarationContext s n ty e c =>
      P_declaration s n ty e c (opt e) (opt c)
  | AssignmentContext s n e => P_assignment s n e (tree_nested_ind e)
  | MethodDeclarationContext s n ty ps b rs =>
      P_method s n ty ps b rs (tree_nested_ind b)
        match rs return P_option (snd <$> rs) with
        | Some (_, e) => tree_nested_ind e
        | None => I
        end
  | ClassDeclarationContext s n i p fs ms => P_class s n i p fs ms (all ms)
  | ExpressionContext a => P_expression a (tree_nested_ind a)
  | AdditiveExpressionContext s ms => P_additive s ms (all ms)
  | MultiplicativeExpressionContext s ts => P_multiplicative s ts (all ts)
  | TermContext s n l a b e txt =>
      P_term s n l a b e txt (opt l) (opt a) (opt b) (opt e)
  | LiteralContext c f s txt => P_literal c f s txt
  end.

End TreeInduction.

(** ** State relations that every visit maintains

    Most facts about the checker's state have one shape: a reflexive and
    transitive relation between the state before and the state after that
    each primitive update maintains.  The section proves once that every
    visit then maintains it, whatever its outcome.  Storing a signature
    unchecked need only be maintained when [unchecked_ok] is set; otherwise
    the result covers the trees of [checked_only]. *)

Section Preservation.

Variable R : state -> state -> Prop.
Variable unchecked_ok : bool.

Hypothesis R_refl : forall st, R st st.
Hypothesis R_trans : forall a b c, R a b -> R b c -> R a c.
Hypothesis R_used : forall k st, R st (with_used k st).
Hypothesis R_print : forall p st, R st (with_print p st).
Hypothesis R_declare : forall k v st,
  valid_name k = true -> Dict.mem k (symbol_table st) = false ->
  R st (with_symbol k v st).
Hypothesis R_register : unchecked_ok = true ->
  forall k v st, R st (with_symbol k v st).
Hypothesis R_parent : forall k v m st,
  inheritance_map st = Some m -> R st (with_parent k v m st).

Definition respects {A} (c : M A) : Prop := forall st, R st (c st).2.

Lemma respects_ret {A} (a : A) : respects (ret a).
Proof. intros st. apply R_refl. Qed.

Lemma respects_raise {A} (e : error) : respects (@raise A e).
Proof. intros st. apply R_refl. Qed.

Lemma respects_lift {A} (r : error + A) : respects (lift r).
Proof. intros st. apply R_refl. Qed.

Lemma respects_modify (f : state -> state) :
  (forall st, R st (f st)) -> respects (modify f).
Proof. intros Hf st. apply Hf. Qed.

Lemma respects_bind {A B} (c : M A) (k : A -> M B) :
  respects c -> (forall a, respects (k a)) -> respects (bind c k).
Proof.
  intros Hc Hk st. unfold bind. specialize (Hc st).
  destruct (c st) as [[e | a] st1]; simpl in *; [assumption |].
  eapply R_trans; [exact Hc | apply Hk].
Qed.

Lemma respects_get {B} (k : state -> M B) :
  (forall st, R st (k st st).2) -> respects (bind get_state k).
Proof. intros Hk st. apply Hk. Qed.

Lemma respects_read_inheritance_map : respects read_inheritance_map.
Proof.
  apply respects_get. intros st.
  destruct (inheritance_map st); apply R_refl.
Qed.

Lemma respects_is_type_compatible d e : respects (is_type_compatible d e).
Proof.
  unfold is_type_compatible. destruct (py_eq d e); [apply respects_ret |].
  apply respects_bind; [apply respects_read_inheritance_map |]. intros m.
  apply respects_bind; [apply respects_lift |]. intros [|];
    [apply respects_lift | apply respects_ret].
Qed.

Lemma respects_warn_unused items : respects (warn_unused items).
Proof.
  induction items as [| [var info] rest IH]; simpl; [apply respects_ret |].
  apply respects_get. intros st. apply respects_bind; [| auto].
  destruct (decide (var ∈ used_variables st));
    [apply respects_ret | apply respects_modify, R_print].
Qed.

Lemma respects_register_signatures start signatures :
  unchecked_ok = true \/ signatures = [] ->
  respects (register_signatures start signatures).
Proof.
  intros [Hok | ->]; [| apply respects_ret].
  induction signatures as [| [var_name var_type] rest IH]; simpl;
    [apply respects_ret |].
  apply respects_bind.
  - destruct start; [apply respects_ret | apply respects_raise].
  - intros l. apply respects_bind; [| auto].
    apply respects_modify. auto.
Qed.

Section Methods.

Variable v : tree -> M pytype.

Lemma respects_visitChildren_from result children :
  Forall (fun c => respects (v c)) children ->
  respects (visitChildren_from v result children).
Proof.
  intros H. revert result.
  induction H as [| c cs Hc _ IH]; intros result; simpl;
    [apply respects_ret | apply respects_bind; auto].
Qed.

Lemma respects_visit_each statements :
  Forall (fun c => respects (v c)) statements ->
  respects (visit_each v statements).
Proof.
  induction 1 as [| c cs Hc _ IH]; simpl;
    [apply respects_ret | apply respects_bind; auto].
Qed.

Lemma respects_visitProgram statements :
  Forall (fun c => respects (v c)) statements ->
  respects (visitProgram v statements).
Proof.
  intros H. unfold visitProgram.
  apply respects_bind; [apply respects_visit_each, H |]. intros _.
  apply respects_get. intros st.
  apply respects_bind; [apply respects_warn_unused |]. intros _.
  apply respects_ret.
Qed.

Lemma respects_visitShowStatement start e :
  respects (v e) -> respects (visitShowStatement v start e).
Proof.
  intros H. unfold visitShowStatement.
  apply respects_bind; [exact H |]. intros ty. simpl.
  destruct (decide (ty = Some "none")); [apply respects_raise |].
  apply respects_bind; [apply respects_modify, R_print |]. intros _.
  apply respects_ret.
Qed.

Lemma respects_visitVariableDeclaration start name ty e c :
  (forall i, e = Some i \/ c = Some i -> respects (v i)) ->
  respects (visitVariableDeclaration v start name ty e c).
Proof.
  intros H. unfold visitVariableDeclaration. simpl.
  destruct (startswith_sigil name) eqn:Hsigil; simpl;
    [| apply respects_raise].
  destruct (valid_variable_pattern (drop_first name)) eqn:Hpat; simpl;
    [| apply respects_raise].
  apply respects_get. intros st.
  destruct (Dict.mem name (symbol_table st)) eqn:Hmem;
    [apply respects_raise |].
  unfold bind at 1. simpl.
  eapply R_trans.
  { apply R_declare; [| eassumption]. unfold valid_name.
    rewrite Hsigil, Hpat. reflexivity. }
  destruct e as [i |]; [| destruct c as [i |]];
    first
      [ apply R_refl
      | apply respects_bind; [apply H; auto |]; intros t;
        destruct (decide (t <> Some ty));
          [apply respects_raise | apply respects_ret] ].
Qed.

Lemma respects_visitAssignment start name e :
  respects (v e) -> respects (visitAssignment v start name e).
Proof.
  intros H. unfold visitAssignment. simpl.
  apply respects_get. intros st.
  destruct (Dict.get name (symbol_table st)) as [d |];
    [| apply respects_raise].
  apply respects_bind; [apply respects_modify, R_used |]. intros _.
  apply respects_bind; [exact H |]. intros ty.
  apply respects_bind; [apply respects_is_type_compatible |].
  intros [|]; [apply respects_ret | apply respects_raise].
Qed.

Lemma respects_visitMethodDeclaration start name ty ps b rs :
  unchecked_ok = true \/ ps = [] ->
  respects (v b) -> (forall r, rs = Some r -> respects (v r.2)) ->
  respects (visitMethodDeclaration v start name ty ps b rs).
Proof.
  intros Hps Hb Hrs. unfold visitMethodDeclaration.
  apply respects_bind; [apply respects_register_signatures, Hps |].
  intros _. apply respects_get. intros st.
  destruct (Dict.mem name (symbol_table st)); [apply respects_raise |].
  apply respects_bind; [exact Hb |]. intros _.
  destruct rs as [[rstart rexpr] |]; [| apply respects_ret].
  apply respects_bind; [apply (Hrs _ eq_refl) |]. intros t.
  destruct (decide (t <> Some ty));
    [apply respects_raise | apply respects_ret].
Qed.

Lemma respects_call_each_method methods :
  Forall (fun m => respects (call_visitMethodDeclaration v m)) methods ->
  respects (call_each_method v methods).
Proof.
  induction 1 as [| c cs Hc _ IH]; simpl;
    [apply respects_ret | apply respects_bind; auto].
Qed.

Lemma respects_visitClassDeclaration start name i p fs ms :
  unchecked_ok = true \/ fs = [] ->
  Forall (fun m => respects (call_visitMethodDeclaration v m)) ms ->
  respects (visitClassDeclaration v start name i p fs ms).
Proof.
  intros Hfs Hms. unfold visitClassDeclaration.
  apply respects_get. intros st.
  destruct (Dict.mem name (symbol_table st)); [apply respects_raise |].
  unfold bind at 1, read_inheritance_map at 1. unfold bind at 1. simpl.
  destruct (inheritance_map st) as [m |] eqn:Hmap; simpl; [| apply R_refl].
  unfold bind at 1. simpl.
  eapply R_trans; [apply (R_parent name i m st Hmap) |].
  apply respects_bind.
  { destruct p; [apply respects_raise | apply respects_ret]. }
  intros _. apply respects_bind;
    [apply respects_register_signatures, Hfs |].
  intros _. apply respects_bind;
    [apply respects_call_each_method, Hms |].
  intros _. apply respects_ret.
Qed.

Lemma respects_fold_operands mismatch left_type operands :
  Forall (fun c => respects (v c)) operands ->
  respects (fold_operands v mismatch left_type operands).
Proof.
  intros H. revert left_type.
  induction H as [| c cs Hc _ IH]; intros left_type; simpl;
    [apply respects_ret |].
  apply respects_bind; [exact Hc |]. intros right_type.
  destruct (promote left_type right_type) as [l r].
  destruct (decide (l <> r)); [apply respects_raise | apply IH].
Qed.

Lemma respects_visit_binary mismatch operands :
  Forall (fun c => respects (v c)) operands ->
  respects (visit_binary v mismatch operands).
Proof.
  intros H. destruct H as [| c cs Hc Hcs]; simpl; [apply respects_raise |].
  destruct cs as [| c' cs]; [exact Hc |].
  apply respects_bind; [exact Hc |]. intros left_type.
  apply respects_fold_operands, Hcs.
Qed.

Lemma respects_visitTerm start name l a b e txt :
  (forall child, l = Some child \/ a = Some child \/ b = Some child
                 \/ e = Some child -> respects (v child)) ->
  respects (visitTerm v start name l a b e txt).
Proof.
  intros H. unfold visitTerm. destruct name as [var_name |].
  - apply respects_get. intros st.
    destruct (Dict.get var_name (symbol_table st)) as [info |];
      [| apply respects_raise].
    apply respects_bind; [apply respects_modify, R_used |]. intros _.
    apply respects_ret.
  - destruct l; [apply H; auto |]. destruct a; [apply H; auto |].
    destruct b; [apply H; auto |]. destruct e; [apply H; auto |].
    apply respects_raise.
Qed.

Lemma respects_visitLiteral c f s txt : respects (visitLiteral c f s txt).
Proof.
  unfold visitLiteral.
  destruct c; [apply respects_ret |]. destruct f; [apply respects_ret |].
  destruct s; [apply respects_ret | apply respects_raise].
Qed.

End Methods.

(** Either every unchecked store is fine, or the tree has none. *)
Definition admissible (t : tree) : bool := unchecked_ok || checked_only t.

Lemma admissible_all nodes (Q : tree -> Prop) :
  unchecked_ok || forallb checked_only nodes = true ->
  Forall (fun t => admissible t = true -> Q t) nodes -> Forall Q nodes.
Proof.
  intros Hadm H. induction H as [| t ts Ht _ IH]; [constructor |].
  assert (admissible t = true /\
          unchecked_ok || forallb checked_only ts = true) as [H1 H2].
  { unfold admissible. destruct unchecked_ok; [auto |]. simpl in *.
    apply andb_prop in Hadm. exact Hadm. }
  constructor; auto.
Qed.

Lemma admissible_option o t :
  unchecked_ok || on_option checked_only o = true ->
  P_option (fun t => admissible t = true -> respects (visit t)) o ->
  o = Some t -> respects (visit t).
Proof. intros Hadm H ->. apply H, Hadm. Qed.

Theorem visit_respects t : admissible t = true -> respects (visit t).
Proof.
  induction t as
    [ | cs IH | ss IH | s e IH | s n ty e c IHe IHc | s n e IH
    | s n ty ps b rs IHb IHrs | s n i p fs ms IH | a IH | s ms IH | s ts IH
    | s n l a b e txt IHl IHa IHb IHe | c f s txt ]
    using tree_nested_ind; unfold admissible; intros Hadm; cbn [visit].
  - apply respects_ret.
  - apply respects_visitChildren_from. eapply admissible_all; eauto.
  - apply respects_visitProgram. eapply admissible_all; eauto.
  - apply respects_visitShowStatement. auto.
  - apply respects_visitVariableDeclaration.
    assert (unchecked_ok || on_option checked_only e = true /\
            unchecked_ok || on_option checked_only c = true) as [He Hc].
    { destruct unchecked_ok; [auto |]. simpl in *.
      apply andb_prop in Hadm. exact Hadm. }
    intros i [Hi | Hi];
      [apply (admissible_option e) | apply (admissible_option c)]; auto.
  - apply respects_visitAssignment. auto.
  - assert ((unchecked_ok = true \/ ps = []) /\ admissible b = true /\
            forall r, rs = Some r -> admissible r.2 = true)
      as (Hps & Hb & Hrs).
    { unfold admissible. destruct unchecked_ok; [auto 6 |]. simpl in *.
      destruct ps; [| discriminate]. simpl in Hadm.
      apply andb_prop in Hadm as [Hb Hrs]. repeat split; auto.
      intros [rstart rexpr] ->. exact Hrs. }
    apply respects_visitMethodDeclaration; auto.
    intros [rstart rexpr] ->. apply IHrs, (Hrs _ eq_refl).
  - assert ((unchecked_ok = true \/ fs = []) /\
            unchecked_ok || forallb checked_only ms = true) as [Hfs Hms].
    { destruct unchecked_ok; [auto |]. simpl in *.
      destruct fs; [| discriminate]. auto. }
    apply respects_visitClassDeclaration; [exact Hfs |].
    eapply admissible_all; [exact Hms |].
    eapply Forall_impl; [exact IH |]. intros m IHm Hm.
    destruct m; try apply respects_raise. apply (IHm Hm).
  - auto.
  - unfold visitAdditiveExpression. simpl.
    apply respects_visit_binary. eapply admissible_all; eauto.
  - unfold visitMultiplicativeExpression. simpl.
    apply respects_visit_binary. eapply admissible_all; eauto.
  - apply respects_visitTerm.
    assert (unchecked_ok || on_option checked_only l = true /\
            unchecked_ok || on_option checked_only a = true /\
            unchecked_ok || on_option checked_only b = true /\
            unchecked_ok || on_option checked_only e = true)
      as (Hl & Ha & Hb & He).
    { destruct unchecked_ok; [auto |]. simpl in *.
      apply andb_prop in Hadm as [Hadm He].
      apply andb_prop in Hadm as [Hadm Hb].
      apply andb_prop in Hadm as [Hl Ha]. auto. }
    intros child [Hc | [Hc | [Hc | Hc]]];
      [ apply (admissible_option l) | apply (admissible_option a)
      | apply (admissible_option b) | apply (admissible_option e) ]; auto.
  - apply respects_visitLiteral.
Qed.

End Preservation.

(** ** Instances: what no visit undoes *)

Lemma visit_keeps_keys t st k :
  Dict.mem k (symbol_table st) = true ->
  Dict.mem k (symbol_table (visit t st).2) = true.
Proof.
  revert st. change (respects
    (fun st st' => Dict.mem k (symbol_table st) = true ->
                   Dict.mem k (symbol_table st') = true) (visit t)).
  apply (visit_respects _ true); auto.
  - intros k' v st _ _. simpl. apply dict_mem_set.
  - intros _ k' v st. simpl. apply dict_mem_set.
Qed.

Lemma visit_keeps_used t st k :
  k ∈ used_variables st -> k ∈ used_variables (visit t st).2.
Proof.
  revert st. change (respects
    (fun st st' => k ∈ used_variables st -> k ∈ used_variables st')
    (visit t)).
  apply (visit_respects _ true); auto.
  intros k' st. simpl. set_solver.
Qed.

Lemma visit_keeps_NoDup t st :
  NoDup (Dict.keys (symbol_table st)) ->
  NoDup (Dict.keys (symbol_table (visit t st).2)).
Proof.
  revert st. change (respects
    (fun st st' => NoDup (Dict.keys (symbol_table st)) ->
                   NoDup (Dict.keys (symbol_table st'))) (visit t)).
  apply (visit_respects _ true); auto.
  - intros k v st _ _. simpl. apply dict_set_NoDup.
  - intros _ k v st. simpl. apply dict_set_NoDup.
Qed.

Lemma visit_keeps_map_unset t st :
  inheritance_map st = None -> inheritance_map (visit t st).2 = None.
Proof.
  revert st. change (respects
    (fun st st' => inheritance_map st = None -> inheritance_map st' = None)
    (visit t)).
  apply (visit_respects _ true); auto.
  intros k v m st Hm. congruence.
Qed.

Lemma checked_writes_same_table st st' :
  symbol_table st' = symbol_table st -> checked_writes st st'.
Proof. intros Heq k Hk. rewrite Heq in Hk. congruence. Qed.

Lemma checked_writes_refl st : checked_writes st st.
Proof. apply checked_writes_same_table. reflexivity. Qed.

Lemma checked_writes_trans a b c :
  checked_writes a b -> checked_writes b c -> checked_writes a c.
Proof.
  intros Hab Hbc k Hk.
  destruct (decide (Dict.get k (symbol_table b) = Dict.get k (symbol_table a)))
    as [Heq | Hne].
  - rewrite <- Heq. apply Hbc. congruence.
  - apply Hab, Hne.
Qed.

Lemma checked_writes_declare k v st :
  valid_name k = true -> Dict.mem k (symbol_table st) = false ->
  checked_writes st (with_symbol k v st).
Proof.
  intros Hvalid Hmem k' Hk'. simpl in Hk'. rewrite dict_get_set in Hk'.
  destruct (decide (k' = k)) as [-> | Hne]; [| congruence].
  split; [| exact Hvalid]. unfold Dict.mem in Hmem.
  destruct (Dict.get k (symbol_table st)); [discriminate | reflexivity].
Qed.

(** ** Assignment *)

(** A dict never equals what a visit returns. *)
Lemma py_eq_dict_type d ty : py_eq (PyDict d) (py_of ty) = false.
Proof. destruct ty; reflexivity. Qed.

(** C1 (defect in the code): when the target of an assignment is in the
    symbol table it is marked used and the right-hand side is inferred, but
    the assignment then never succeeds.  [visitAssignment] hands the whole
    symbol-table entry, not its type, to [is_type_compatible], so the equality
    test fails, and the inheritance map is then read: the attribute does not
    exist (AttributeError), and if it did the entry would not hash
    (TypeError).  Equal types and subclass types are both rejected this
    way. *)
Theorem visitAssignment_never_succeeds start name e st d ty st' :
  Dict.get name (symbol_table st) = Some d ->
  visit e (with_used name st) = (inr ty, st') ->
  name ∈ used_variables st' /\
  visit (AssignmentContext start name e) st =
    (inl match inheritance_map st' with
         | None => AttributeError "TypeChecker" "inheritance_map"
         | Some _ => TypeError "unhashable type: 'dict'"
         end, st').
Proof.
  intros Hget He. split.
  - replace st' with (visit e (with_used name st)).2
      by (rewrite He; reflexivity).
    apply visit_keeps_used. simpl. set_solver.
  - cbn [visit]. unfold visitAssignment. simpl.
    unfold bind at 1. simpl. rewrite Hget.
    unfold bind at 1. simpl. unfold bind at 1. rewrite He.
    unfold bind at 1, is_type_compatible. rewrite py_eq_dict_type.
    unfold bind at 1, read_inheritance_map. unfold bind at 1. simpl.
    destruct (inheritance_map st'); reflexivity.
Qed.

Lemma visitAssignment_never_succeeds_witness :
  "$x" ∈ used_variables (with_used "$x" (analyse Sample.declare_x).2) /\
  visit Sample.assign_x (analyse Sample.declare_x).2 =
    (inl (AttributeError "TypeChecker" "inheritance_map"),
     with_used "$x" (analyse Sample.declare_x).2).
Proof.
  apply (visitAssignment_never_succeeds (Sample.at_ 2 0) "$x"
           (Sample.expression_of 2 5 (Sample.literal_term 2 5
                                        Sample.chunk_literal))
           (analyse Sample.declare_x).2 (Entry "chunk" (Some 1))
           (Some "chunk") (with_used "$x" (analyse Sample.declare_x).2));
    vm_compute; reflexivity.
Defined.

(** ** Lifecycle of the inheritance map *)

(** C2 (defect in the code): the constructor creates the symbol table
    (empty) and the used set, but no inheritance map; no visit creates it
    either, so it is still missing after every run, and the first write to
    it (a class declaration) or read of it (an assignment) raises
    AttributeError. *)
Theorem inheritance_map_never_created :
  symbol_table init = [] /\
  inheritance_map init = None /\
  (forall program, inheritance_map (analyse program).2 = None) /\
  analyse Sample.empty_class =
    (inl (AttributeError "TypeChecker" "inheritance_map"), init) /\
  (analyse (ProgramContext [Sample.statement Sample.declare_x;
                            Sample.statement Sample.assign_x])).1 =
    inl (AttributeError "TypeChecker" "inheritance_map").
Proof.
  split; [reflexivity |]. split; [reflexivity |]. split.
  - intros program. apply visit_keeps_map_unset. reflexivity.
  - split; reflexivity.
Qed.

(** ** Writes to the symbol table *)

(** C3 (as stated, refuted): a method parameter is stored without any
    check.  After [$x: chunk = 5], declaring a method with a parameter
    [$x: string] replaces the entry of [$x], a key that was present. *)
Lemma parameter_overwrites_declared_variable :
  ~ checked_writes (analyse Sample.declare_x).2
      (visit Sample.method_with_parameter_x (analyse Sample.declare_x).2).2.
Proof.
  intros H. destruct (H "$x") as [Habsent _].
  - vm_compute. discriminate.
  - vm_compute in Habsent. discriminate.
Qed.

(** C3 (amended): in a tree where no method declares a parameter and no
    class declares a field, every visit writes the symbol table only by
    inserting a key that passed the declaration checks: the name is valid
    and the key was absent.  This covers variable declarations, assignments,
    show statements and expressions, whatever the outcome of the visit. *)
Theorem checked_trees_write_checked t st :
  checked_only t = true -> checked_writes st (visit t st).2.
Proof.
  intros Ht. revert st. change (respects checked_writes (visit t)).
  apply (visit_respects _ false).
  - apply checked_writes_refl.
  - apply checked_writes_trans.
  - intros k st. apply checked_writes_same_table. reflexivity.
  - intros p st. apply checked_writes_same_table. reflexivity.
  - apply checked_writes_declare.
  - discriminate.
  - intros k v m st _. apply checked_writes_same_table. reflexivity.
  - exact Ht.
Qed.

Lemma checked_trees_write_checked_witness :
  checked_writes init (visit Sample.declare_x init).2.
Proof.
  apply (checked_trees_write_checked Sample.declare_x init). reflexivity.
Defined.

(** ** Redeclaration *)

(** A second variable declaration under a name in the table is rejected. *)
Lemma variable_redeclaration_rejected start name ty e c st :
  valid_name name = true -> Dict.mem name (symbol_table st) = true ->
  visit (VariableDeclarationContext start name ty e c) st =
    (inl (VariableRedeclared name), st).
Proof.
  intros Hvalid Hmem. apply andb_prop in Hvalid as [Hsigil Hpat].
  cbn [visit]. unfold visitVariableDeclaration. simpl.
  rewrite Hsigil, Hpat. simpl. unfold bind at 1. simpl. rewrite Hmem.
  reflexivity.
Qed.

(** C4 (defect in the code): a method declaration looks its name up in the
    symbol table but never stores it there, so declaring the same method
    twice is accepted: both declarations succeed and leave the state as it
    was. *)
Theorem method_redeclaration_accepted start name ty st :
  Dict.mem name (symbol_table st) = false ->
  let method :=
    MethodDeclarationContext start name ty [] (RuleContext []) None in
  visit method st = (inr None, st) /\
  visit (RuleContext [method; method]) st = (inr None, st).
Proof.
  intros Hmem method.
  assert (Hone : visit method st = (inr None, st)).
  { cbn [visit method]. unfold visitMethodDeclaration. simpl.
    unfold bind at 1. simpl. unfold bind at 1. simpl. rewrite Hmem.
    reflexivity. }
  split; [exact Hone |].
  change (visit (RuleContext [method; method]) st)
    with (visitChildren visit [method; method] st).
  unfold visitChildren. cbn [visitChildren_from].
  unfold bind at 1. rewrite Hone. unfold bind at 1. rewrite Hone.
  reflexivity.
Qed.

Lemma method_redeclaration_accepted_witness :
  visit (Sample.empty_method 1 "area") init = (inr None, init) /\
  visit (RuleContext [Sample.empty_method 1 "area";
                      Sample.empty_method 1 "area"]) init =
    (inr None, init).
Proof.
  apply (method_redeclaration_accepted (Sample.at_ 1 0) "area" "chunk" init).
  reflexivity.
Defined.

(** ** Binary expressions *)

Lemma visit_binary_pair mismatch a b st l r st1 st2 :
  visit a st = (inr l, st1) -> visit b st1 = (inr r, st2) ->
  visit_binary visit mismatch [a; b] st =
    (let '(l', r') := promote l r in
     if decide (l' <> r') then inl (mismatch l' r') else inr l', st2).
Proof.
  intros Ha Hb. cbn [visit_binary fold_operands].
  unfold bind at 1. rewrite Ha. unfold bind at 1. rewrite Hb.
  destruct (promote l r) as [l' r'].
  destruct (decide (l' <> r')); reflexivity.
Qed.

Lemma promote_mix l r :
  numeric_mix l r -> promote l r = (Some "fraction", Some "fraction").
Proof. intros [[-> ->] | [-> ->]]; reflexivity. Qed.

Lemma promote_other l r : ~ numeric_mix l r -> promote l r = (l, r).
Proof.
  intros H. unfold promote, numeric_mix in *.
  repeat case_decide; tauto.
Qed.

(** C5: for a two-operand additive or multiplicative node whose operands
    infer to [l] and [r]: if one is [chunk] and the other [fraction], in
    either order, the node infers to [fraction]; there is no other
    conversion, so otherwise the node infers to [l] when [l = r] and raises
    a type mismatch naming [l] and [r] when they differ, as for [chunk] with
    [string]. *)
Theorem binary_promotion_symmetric start a b st l r st1 st2 :
  visit a st = (inr l, st1) -> visit b st1 = (inr r, st2) ->
  let line := tok_line <$> start in
  let col := tok_column <$> start in
  let additive := visit (AdditiveExpressionContext start [a; b]) st in
  let multiplicative :=
    visit (MultiplicativeExpressionContext start [a; b]) st in
  (numeric_mix l r ->
     additive = (inr (Some "fraction"), st2) /\
     multiplicative = (inr (Some "fraction"), st2)) /\
  (~ numeric_mix l r -> l = r ->
     additive = (inr l, st2) /\ multiplicative = (inr l, st2)) /\
  (~ numeric_mix l r -> l <> r ->
     additive = (inl (AdditiveMismatch line col l r), st2) /\
     multiplicative = (inl (MultiplicativeMismatch line col l r), st2) /\
     kind_of (AdditiveMismatch line col l r) = TypeMismatchError /\
     kind_of (MultiplicativeMismatch line col l r) = TypeMismatchError) /\
  (l = Some "chunk" -> r = Some "string" ->
     additive =
       (inl (AdditiveMismatch line col (Some "chunk") (Some "string")), st2)
     /\ multiplicative =
       (inl (MultiplicativeMismatch line col (Some "chunk") (Some "string")),
        st2)).
Proof.
  intros Ha Hb line col additive multiplicative.
  assert (Hadd : forall res,
    (let '(l', r') := promote l r in
     if decide (l' <> r') then inl (AdditiveMismatch line col l' r')
     else inr l') = res -> additive = (res, st2)).
  { intros res <-. subst additive. cbn [visit].
    unfold visitAdditiveExpression. simpl.
    apply (visit_binary_pair _ a b st l r st1 st2 Ha Hb). }
  assert (Hmul : forall res,
    (let '(l', r') := promote l r in
     if decide (l' <> r') then inl (MultiplicativeMismatch line col l' r')
     else inr l') = res -> multiplicative = (res, st2)).
  { intros res <-. subst multiplicative. cbn [visit].
    unfold visitMultiplicativeExpression. simpl.
    apply (visit_binary_pair _ a b st l r st1 st2 Ha Hb). }
  assert (Hdiff : ~ numeric_mix l r -> l <> r ->
    additive = (inl (AdditiveMismatch line col l r), st2) /\
    multiplicative = (inl (MultiplicativeMismatch line col l r), st2)).
  { intros Hmix Hne. rewrite (promote_other l r Hmix) in Hadd, Hmul.
    split; [apply Hadd | apply Hmul]; case_decide; tauto. }
  repeat split.
  - apply Hadd. rewrite (promote_mix l r H). reflexivity.
  - apply Hmul. rewrite (promote_mix l r H). reflexivity.
  - apply Hadd. rewrite (promote_other l r H). case_decide; tauto.
  - apply Hmul. rewrite (promote_other l r H). case_decide; tauto.
  - apply Hdiff; assumption.
  - apply Hdiff; assumption.
  - subst l r. apply Hdiff; [| discriminate].
    intros [[? ?] | [? ?]]; discriminate.
  - subst l r. apply Hdiff; [| discriminate].
    intros [[? ?] | [? ?]]; discriminate.
Qed.

Lemma binary_promotion_symmetric_witness :
  visit (AdditiveExpressionContext (Sample.at_ 1 0)
           [Sample.multiplicative_of 1 0
              (Sample.literal_term 1 0 Sample.fraction_literal);
            Sample.multiplicative_of 1 4
              (Sample.literal_term 1 4 Sample.chunk_literal)]) init =
    (inr (Some "fraction"), init).
Proof.
  refine (proj1 (proj1 (binary_promotion_symmetric (Sample.at_ 1 0)
           (Sample.multiplicative_of 1 0
              (Sample.literal_term 1 0 Sample.fraction_literal))
           (Sample.multiplicative_of 1 4
              (Sample.literal_term 1 4 Sample.chunk_literal))
           init (Some "fraction") (Some "chunk") init init
           eq_refl eq_refl) _)).
  right. split; reflexivity.
Defined.

(** ** Variable declarations *)

(** A declaration whose name passes both checks and is new stores its entry
    and then turns to its initializer, [ctx.expression()] or else
    [ctx.createClassStatement()]. *)
Lemma visitVariableDeclaration_fresh start name ty e c st :
  valid_name name = true -> Dict.mem name (symbol_table st) = false ->
  visit (VariableDeclarationContext start name ty e c) st =
    let line := tok_line <$> start in
    let col := tok_column <$> start in
    let st1 := with_symbol name (Entry ty line) st in
    match e, c with
    | Some i, _ | None, Some i =>
        match visit i st1 with
        | (inr init_type, st') =>
            (if decide (init_type = Some ty) then inr None
             else inl (InitializerMismatch init_type ty name line col), st')
        | (inl err, st') => (inl err, st')
        end
    | None, None => (inr None, st1)
    end.
Proof.
  intros Hvalid Hmem. apply andb_prop in Hvalid as [Hsigil Hpat].
  cbn [visit]. unfold visitVariableDeclaration. simpl.
  rewrite Hsigil, Hpat. simpl. unfold bind at 1. simpl. rewrite Hmem.
  unfold bind at 1. simpl.
  destruct e as [i |]; [| destruct c as [i |]]; try reflexivity;
    unfold bind;
    destruct (visit i _) as [[err | init_type] st']; try reflexivity;
    repeat case_decide; reflexivity || tauto.
Qed.

(** C6: a declaration with an initializer (and a valid, new name) succeeds
    exactly when the initializer's inferred type is the declared type name
    itself, and raises a type mismatch otherwise.  The outcome does not
    depend on the inheritance map, so a subclass initializer for an
    ancestor-typed variable is rejected. *)
Theorem declaration_initializer_exact start name ty e c i st init_type st' :
  valid_name name = true -> Dict.mem name (symbol_table st) = false ->
  e = Some i \/ (e = None /\ c = Some i) ->
  visit i (with_symbol name (Entry ty (tok_line <$> start)) st) =
    (inr init_type, st') ->
  visit (VariableDeclarationContext start name ty e c) st =
    (if decide (init_type = Some ty) then inr None
     else inl (InitializerMismatch init_type ty name
                 (tok_line <$> start) (tok_column <$> start)), st') /\
  (init_type <> Some ty ->
   kind_of (InitializerMismatch init_type ty name
              (tok_line <$> start) (tok_column <$> start)) =
   TypeMismatchError).
Proof.
  intros Hvalid Hmem Hinit Hi. split; [| reflexivity].
  rewrite (visitVariableDeclaration_fresh _ _ _ _ _ _ Hvalid Hmem). simpl.
  destruct Hinit as [-> | [-> ->]]; rewrite Hi; reflexivity.
Qed.

(** [$b: Base = $s] where [$s] has type [Sub]. *)
Lemma declaration_initializer_exact_witness :
  (visit (VariableDeclarationContext (Sample.at_ 2 0) "$b" "Base"
            (Some (Sample.expression_of 2 11 (Sample.variable_term 2 11 "$s")))
            None) Sample.with_classes).1 =
    inl (InitializerMismatch (Some "Sub") "Base" "$b" (Some 2) (Some 0)).
Proof.
  refine (f_equal fst (proj1 (declaration_initializer_exact
    (Sample.at_ 2 0) "$b" "Base"
    (Some (Sample.expression_of 2 11 (Sample.variable_term 2 11 "$s"))) None
    (Sample.expression_of 2 11 (Sample.variable_term 2 11 "$s"))
    Sample.with_classes (Some "Sub")
    (with_used "$s"
       (with_symbol "$b" (Entry "Base" (Some 2)) Sample.with_classes))
    eq_refl eq_refl (or_introl eq_refl) eq_refl))).
Defined.

(** C9: a declaration whose name does not start with [$], or whose
    remainder does not match the identifier pattern, raises an invalid-name
    error carrying the declaration's line and column and changes nothing; a
    name that satisfies both goes on to the redeclaration check, and is
    stored when it is new. *)
Theorem declaration_name_checks start name ty e c st :
  let line := tok_line <$> start in
  let col := tok_column <$> start in
  let outcome := visit (VariableDeclarationContext start name ty e c) st in
  (startswith_sigil name = false ->
     outcome = (inl (MissingSigil name line col), st) /\
     kind_of (MissingSigil name line col) = InvalidNameError) /\
  (startswith_sigil name = true ->
   valid_variable_pattern (drop_first name) = false ->
     outcome = (inl (BadIdentifier name line col), st) /\
     kind_of (BadIdentifier name line col) = InvalidNameError) /\
  (startswith_sigil name = true ->
   valid_variable_pattern (drop_first name) = true ->
     (Dict.mem name (symbol_table st) = true ->
        outcome = (inl (VariableRedeclared name), st)) /\
     (Dict.mem name (symbol_table st) = false ->
        Dict.mem name (symbol_table outcome.2) = true /\
        (e = None -> c = None ->
           outcome = (inr None, with_symbol name (Entry ty line) st)))).
Proof.
  intros line col outcome. split; [| split].
  - intros Hsigil. split; [| reflexivity]. subst outcome. cbn [visit].
    unfold visitVariableDeclaration. simpl. rewrite Hsigil. reflexivity.
  - intros Hsigil Hpat. split; [| reflexivity]. subst outcome. cbn [visit].
    unfold visitVariableDeclaration. simpl. rewrite Hsigil, Hpat.
    reflexivity.
  - intros Hsigil Hpat.
    assert (Hvalid : valid_name name = true).
    { unfold valid_name. rewrite Hsigil, Hpat. reflexivity. }
    split; intros Hmem.
    + apply variable_redeclaration_rejected; assumption.
    + subst outcome.
      rewrite (visitVariableDeclaration_fresh _ _ _ _ _ _ Hvalid Hmem).
      cbv zeta. fold line.
      assert (Hstored : Dict.mem name
        (symbol_table (with_symbol name (Entry ty line) st)) = true).
      { unfold Dict.mem. simpl. rewrite dict_get_set.
        case_decide; [reflexivity | congruence]. }
      split.
      * destruct e as [i |]; [| destruct c as [i |]]; [| | exact Hstored];
          pose proof (visit_keeps_keys i _ name Hstored) as Hkeep;
          destruct (visit i _) as [[err | t] st']; exact Hkeep.
      * intros -> ->. reflexivity.
Qed.

Lemma declaration_name_checks_witness :
  visit (VariableDeclarationContext (Sample.at_ 4 2) "count" "chunk"
           None None) init =
    (inl (MissingSigil "count" (Some 4) (Some 2)), init) /\
  visit (VariableDeclarationContext (Sample.at_ 4 2) "$9lives" "chunk"
           None None) init =
    (inl (BadIdentifier "$9lives" (Some 4) (Some 2)), init) /\
  visit (VariableDeclarationContext (Sample.at_ 4 2) "$count_1" "chunk"
           None None) init =
    (inr None, with_symbol "$count_1" (Entry "chunk" (Some 4)) init).
Proof.
  split; [| split].
  - refine (proj1 (proj1 (declaration_name_checks (Sample.at_ 4 2) "count"
              "chunk" None None init) eq_refl)).
  - refine (proj1 (proj1 (proj2 (declaration_name_checks (Sample.at_ 4 2)
              "$9lives" "chunk" None None init)) eq_refl eq_refl)).
  - refine (proj2 (proj2 (proj2 (proj2 (declaration_name_checks
              (Sample.at_ 4 2) "$count_1" "chunk" None None init))
              eq_refl eq_refl) eq_refl) eq_refl eq_refl).
Defined.

(** C10: the entry of a declared variable is stored before its initializer
    is checked.  An initializer that is a reference to the variable itself
    finds it declared, marks it used and infers its declared type, so the
    declaration succeeds; and when the initializer's type differs from the
    declared type, the state left behind by the type mismatch still has the
    variable in the symbol table. *)
Theorem declaration_stores_before_initializer start name ty st :
  valid_name name = true -> Dict.mem name (symbol_table st) = false ->
  let line := tok_line <$> start in
  let col := tok_column <$> start in
  let st1 := with_symbol name (Entry ty line) st in
  (forall s1 s2 s3 l a b e txt,
     visit (VariableDeclarationContext start name ty
              (Some (ExpressionContext
                 (AdditiveExpressionContext s1
                    [MultiplicativeExpressionContext s2
                       [TermContext s3 (Some name) l a b e txt]]))) None) st =
       (inr None, with_used name st1) /\
     name ∈ used_variables (with_used name st1)) /\
  (forall e c i init_type st',
     e = Some i \/ (e = None /\ c = Some i) ->
     visit i st1 = (inr init_type, st') -> init_type <> Some ty ->
     visit (VariableDeclarationContext start name ty e c) st =
       (inl (InitializerMismatch init_type ty name line col), st') /\
     Dict.mem name (symbol_table st') = true).
Proof.
  intros Hvalid Hmem line col st1.
  assert (Hstored : Dict.get name (symbol_table st1) = Some (Entry ty line)).
  { simpl. rewrite dict_get_set. case_decide; [reflexivity | congruence]. }
  split.
  - intros s1 s2 s3 l a b e txt. split; [| simpl; set_solver].
    rewrite (visitVariableDeclaration_fresh _ _ _ _ _ _ Hvalid Hmem).
    cbv zeta. fold line. fold st1. cbn [visit].
    unfold visitExpression. cbn [visit].
    unfold visitAdditiveExpression. simpl. cbn [visit].
    unfold visitMultiplicativeExpression. simpl. cbn [visit].
    unfold visitTerm, bind, get_state. fold st1. rewrite Hstored. simpl.
    case_decide; [reflexivity | tauto].
  - intros e c i init_type st' Hinit Hi Hne. split.
    + rewrite (visitVariableDeclaration_fresh _ _ _ _ _ _ Hvalid Hmem).
      cbv zeta. fold line. fold st1.
      destruct Hinit as [-> | [-> ->]]; rewrite Hi;
        case_decide; tauto || reflexivity.
    + replace st' with (visit i st1).2 by (rewrite Hi; reflexivity).
      apply visit_keeps_keys. unfold Dict.mem. rewrite Hstored. reflexivity.
Qed.

Lemma declaration_stores_before_initializer_witness :
  visit (VariableDeclarationContext (Sample.at_ 1 0) "$x" "chunk"
           (Some (Sample.expression_of 1 12 (Sample.variable_term 1 12 "$x")))
           None) init =
    (inr None,
     with_used "$x" (with_symbol "$x" (Entry "chunk" (Some 1)) init)).
Proof.
  refine (proj1 (proj1 (declaration_stores_before_initializer
    (Sample.at_ 1 0) "$x" "chunk" init eq_refl eq_refl) _ _ _ _ _ _ _ _)).
Defined.

(** ** Show statements *)

(** C8: a show statement whose operand infers to [none] raises an
    invalid-operation error with the statement's line and column; for any
    other inferred type it succeeds and prints one record, rendered as
    [Output: ] followed by the type. *)
Theorem show_statement start e st ty st' :
  visit e st = (inr ty, st') ->
  let line := tok_line <$> start in
  let col := tok_column <$> start in
  (ty = Some "none" ->
     visit (ShowStatementContext start e) st =
       (inl (CannotShowNone line col), st') /\
     kind_of (CannotShowNone line col) = InvalidOperationError) /\
  (ty <> Some "none" ->
     visit (ShowStatementContext start e) st =
       (inr None, with_print (Output ty) st') /\
     stdout (with_print (Output ty) st') = stdout st' ++ [Output ty] /\
     render (Output ty) = String.append "Output: " (str_of_type ty)).
Proof.
  intros He line col.
  assert (Hshow : visit (ShowStatementContext start e) st =
    if decide (ty = Some "none") then (inl (CannotShowNone line col), st')
    else (inr None, with_print (Output ty) st')).
  { cbn [visit]. unfold visitShowStatement, bind at 1. rewrite He. simpl.
    case_decide; reflexivity. }
  split; intros Hty.
  - split; [| reflexivity]. rewrite Hshow. case_decide; tauto.
  - split; [| split; reflexivity]. rewrite Hshow. case_decide; tauto.
Qed.

Lemma show_statement_witness :
  visit (ShowStatementContext (Sample.at_ 1 0)
           (Sample.expression_of 1 5
              (Sample.literal_term 1 5 Sample.chunk_literal))) init =
    (inr None, with_print (Output (Some "chunk")) init) /\
  render (Output (Some "chunk")) = "Output: chunk".
Proof.
  destruct (proj2 (show_statement (Sample.at_ 1 0)
    (Sample.expression_of 1 5 (Sample.literal_term 1 5 Sample.chunk_literal))
    init (Some "chunk") init eq_refl)) as (Hvisit & _ & Hrender).
  - discriminate.
  - split; [exact Hvisit | exact Hrender].
Defined.

(** ** The unused-variable sweep *)

Lemma dict_get_elem_of k v d :
  NoDup (Dict.keys d) -> Dict.get k d = Some v <-> (k, v) ∈ d.
Proof.
  unfold Dict.keys. induction d as [| [k0 v0] d IH]; simpl; intros Hd.
  - split; [discriminate | intros H; inversion H].
  - apply NoDup_cons in Hd as [Hk0 Hd]. rewrite elem_of_cons.
    destruct (decide (k = k0)) as [-> | Hne].
    + split; [intros [= ->]; auto |].
      intros [[= ->] | Hin]; [reflexivity |].
      exfalso. apply Hk0. apply list_elem_of_fmap. exists (k0, v). auto.
    + rewrite (IH Hd). split; [auto |].
      intros [[= -> ->] | Hin]; [congruence | assumption].
Qed.

Lemma print_all_cons p ps st :
  print_all (p :: ps) st = print_all ps (with_print p st).
Proof.
  unfold print_all, with_print. simpl. f_equal.
  rewrite <- app_assoc. reflexivity.
Qed.

Lemma print_all_nil st : print_all [] st = st.
Proof.
  destruct st. unfold print_all. simpl. f_equal. apply app_nil_r.
Qed.

(** The sweep only prints: one warning for each item outside the used set,
    in the order of the items. *)
Lemma warn_unused_prints items st :
  warn_unused items st =
    (inr tt,
     print_all
       ((fun kv => UnusedWarning kv.1 (line kv.2))
          <$> filter (fun kv => kv.1 ∉ used_variables st) items) st).
Proof.
  revert st. induction items as [| [var info] rest IH]; intros st.
  - simpl. rewrite print_all_nil. reflexivity.
  - cbn [warn_unused]. unfold bind at 1. simpl. rewrite filter_cons. simpl.
    destruct (decide (var ∈ used_variables st)) as [Hused | Hunused].
    + rewrite decide_False by auto. unfold bind at 1. simpl. apply IH.
    + rewrite decide_True by auto. unfold bind at 1. simpl.
      rewrite IH, print_all_cons. reflexivity.
Qed.

Lemma warnings_NoDup (used : gset string) (d : Dict.t) :
  NoDup (Dict.keys d) ->
  NoDup ((fun kv => UnusedWarning kv.1 (line kv.2))
           <$> filter (fun kv => kv.1 ∉ used) d).
Proof.
  unfold Dict.keys. induction d as [| [k0 v0] d IH]; intros Hd.
  - constructor.
  - rewrite fmap_cons in Hd. apply NoDup_cons in Hd as [Hk0 Hd].
    rewrite filter_cons. simpl in *.
    case_decide; [| auto]. rewrite fmap_cons. apply NoDup_cons.
    split; [| auto]. simpl. intros Hin.
    apply list_elem_of_fmap in Hin as ([k v] & [= -> _] & Hin).
    apply list_elem_of_filter in Hin as [_ Hin].
    apply Hk0. apply list_elem_of_fmap. exists (k, v). auto.
Qed.

Lemma unused_warnings_NoDup st :
  NoDup (Dict.keys (symbol_table st)) -> NoDup (unused_warnings st).
Proof. apply warnings_NoDup. Qed.

Lemma unused_warnings_elem_of st var l :
  NoDup (Dict.keys (symbol_table st)) ->
  UnusedWarning var l ∈ unused_warnings st <->
  (var ∉ used_variables st) /\
  exists info, Dict.get var (symbol_table st) = Some info /\ line info = l.
Proof.
  intros Hd. unfold unused_warnings. rewrite list_elem_of_fmap. split.
  - intros ([k info] & [= -> ->] & Hin).
    apply list_elem_of_filter in Hin as [Hunused Hin]. simpl in *.
    split; [exact Hunused |]. exists info. split; [| reflexivity].
    apply dict_get_elem_of; assumption.
  - intros (Hunused & info & Hget & <-). exists (var, info).
    split; [reflexivity |]. apply list_elem_of_filter.
    split; [exact Hunused |]. apply dict_get_elem_of; assumption.
Qed.

(** C7: when every statement is visited without an error, the program visit
    succeeds and only appends to the output the warnings of the sweep: going
    through the symbol table in insertion order, one warning with the name
    and the declaration line of each entry whose name is not in the used set.
    No warning is printed twice and none is printed for a used name.  When a
    statement raises, the error is the outcome and nothing is printed after
    it. *)
Theorem unused_variable_sweep statements st :
  NoDup (Dict.keys (symbol_table st)) ->
  match visit_each visit statements st with
  | (inl err, st') => visit (ProgramContext statements) st = (inl err, st')
  | (inr _, st') =>
      visit (ProgramContext statements) st =
        (inr None, print_all (unused_warnings st') st') /\
      stdout (print_all (unused_warnings st') st') =
        stdout st' ++ unused_warnings st' /\
      NoDup (unused_warnings st') /\
      forall var l,
        UnusedWarning var l ∈ unused_warnings st' <->
        (var ∉ used_variables st') /\
        exists info,
          Dict.get var (symbol_table st') = Some info /\ line info = l
  end.
Proof.
  intros Hd.
  assert (Hkeep : NoDup (Dict.keys
            (symbol_table (visit_each visit statements st).2))).
  { revert Hd. generalize st. change (respects
      (fun st st' => NoDup (Dict.keys (symbol_table st)) ->
                     NoDup (Dict.keys (symbol_table st')))
      (visit_each visit statements)).
    apply respects_visit_each; [auto | auto |].
    apply Forall_forall. intros t _ st0. apply visit_keeps_NoDup. }
  assert (Hprogram : visit (ProgramContext statements) st =
    match visit_each visit statements st with
    | (inl err, st') => (inl err, st')
    | (inr _, st') => (inr None, print_all (unused_warnings st') st')
    end).
  { cbn [visit]. unfold visitProgram. unfold bind at 1.
    destruct (visit_each visit statements st) as [[err | []] st'];
      [reflexivity |].
    unfold bind at 1. simpl. unfold bind at 1.
    rewrite warn_unused_prints. reflexivity. }
  rewrite Hprogram.
  destruct (visit_each visit statements st) as [[err | []] st'];
    [reflexivity |]. simpl in Hkeep.
  split; [reflexivity | split; [reflexivity | split]].
  - apply unused_warnings_NoDup, Hkeep.
  - intros var l. apply unused_warnings_elem_of, Hkeep.
Qed.

Lemma unused_variable_sweep_witness :
  visit (ProgramContext [Sample.statement Sample.declare_x;
                         Sample.statement Sample.show_x;
                         Sample.statement Sample.declare_y]) init =
    (inr None,
     print_all [UnusedWarning "$y" (Some 3)]
       (with_symbol "$y" (Entry "string" (Some 3))
          (with_print (Output (Some "chunk"))
             (with_used "$x"
                (with_symbol "$x" (Entry "chunk" (Some 1)) init))))).
Proof.
  assert (Hd : NoDup (Dict.keys (symbol_table init)))
    by (simpl; constructor).
  pose proof (unused_variable_sweep
    [Sample.statement Sample.declare_x; Sample.statement Sample.show_x;
     Sample.statement Sample.declare_y] init Hd) as H.
  vm_compute in H. destruct H as [H _]. vm_compute. exact H.
Defined.

(** ** The identifier pattern *)

(** What the pattern accepts after the first character: word characters up
    to the end, or up to one final newline. *)
Lemma word_chars_to_end_spec s :
  word_chars_to_end s = true <->
  all_word_chars s = true \/
  exists body,
    s = String.append body (String (ascii_of_nat 10) EmptyString) /\
    all_word_chars body = true.
Proof.
  induction s as [| c s IH].
  - simpl. split; auto.
  - destruct s as [| c' s'].
    + cbn [word_chars_to_end all_word_chars]. rewrite orb_true_iff.
      rewrite andb_true_r. split.
      * intros [Hc | Hc]; [left; exact Hc | right].
        exists EmptyString. split; [| reflexivity].
        apply Nat.eqb_eq in Hc. rewrite <- Hc, ascii_nat_embedding.
        reflexivity.
      * intros [Hc | (body & Hbody & _)]; [left; exact Hc | right].
        destruct body as [| b body]; simpl in Hbody.
        -- injection Hbody as ->. reflexivity.
        -- injection Hbody as _ Hrest. destruct body; discriminate.
    + change (word_chars_to_end (String c (String c' s')))
        with (is_word_char c && word_chars_to_end (String c' s')).
      cbn [all_word_chars] in *. rewrite andb_true_iff, IH. split.
      * intros [Hc [Hall | (body & Hbody & Hall)]].
        -- left. rewrite Hc. exact Hall.
        -- right. exists (String c body). simpl. rewrite Hbody, Hc.
           auto.
      * intros [Hall | (body & Hbody & Hall)].
        -- apply andb_prop in Hall as [Hc Hall]. auto.
        -- destruct body as [| b body]; simpl in Hbody; [discriminate |].
           injection Hbody as -> Hrest. simpl in Hall.
           apply andb_prop in Hall as [Hc Hall]. split; [exact Hc |].
           right. exists body. auto.
Qed.

(** X15: [^[a-zA-Z_][a-zA-Z0-9_]*$]: a letter or underscore, then word
    characters; Python's [$] also lets one newline end the string. *)
Lemma valid_variable_pattern_spec s :
  valid_variable_pattern s = true <->
  exists c rest,
    s = String c rest /\ is_letter_or_underscore c = true /\
    (all_word_chars rest = true \/
     exists body,
       rest = String.append body (String (ascii_of_nat 10) EmptyString) /\
       all_word_chars body = true).
Proof.
  destruct s as [| c rest]; simpl.
  - split; [discriminate | intros (c & rest & H & _); discriminate].
  - rewrite andb_true_iff, word_chars_to_end_spec. split.
    + intros [Hc Hrest]. exists c, rest. auto.
    + intros (c0 & rest0 & [= -> ->] & Hc & Hrest). auto.
Qed.

(** ** The inheritance walk *)

(** The map stores context objects, which never equal a type name and are
    not keys themselves, so the walk can only succeed at its starting
    point. *)
Lemma walk_chain_true m declared_type current_type :
  walk_chain m declared_type current_type = inr true ->
  current_type = declared_type \/
  exists s c, current_type = PyStr s /\ m !! s = Some (Some c) /\
              declared_type = PyCtx c.
Proof.
  assert (Heq : forall a b, py_eq a b = true -> a = b).
  { intros a b H. apply bool_decide_eq_true in H. exact H. }
  destruct current_type as [| s | e | c]; simp walk_chain.
  - discriminate.
  - destruct (py_eq (PyStr s) declared_type) eqn:Hs; simpl;
      [intros _; left; apply Heq, Hs |].
    destruct (m !! s) as [[c |] |] eqn:Hm; simp walk_chain;
      try discriminate.
    destruct (py_eq (PyCtx c) declared_type) eqn:Hc; simpl;
      [| simp walk_chain; discriminate].
    intros _. right. exists s, c. apply Heq in Hc. auto.
  - destruct (py_eq (PyDict e) declared_type) eqn:He; simpl;
      [intros _; left; apply Heq, He | discriminate].
  - destruct (py_eq (PyCtx c) declared_type) eqn:Hc; simpl;
      [intros _; left; apply Heq, Hc |].
    simp walk_chain. discriminate.
Qed.

(** With type names on both sides, [is_type_compatible] holds only for equal
    names, whatever the inheritance map records. *)
Lemma is_type_compatible_names declared expr st st' :
  is_type_compatible (PyStr declared) (PyStr expr) st = (inr true, st') ->
  declared = expr.
Proof.
  unfold is_type_compatible.
  destruct (py_eq (PyStr declared) (PyStr expr)) eqn:Heq.
  - intros _. apply bool_decide_eq_true in Heq. congruence.
  - unfold bind at 1, read_inheritance_map. unfold bind at 1. simpl.
    destruct (inheritance_map st) as [m |]; simpl; [| discriminate].
    unfold bind at 1. simpl.
    destruct (bool_decide (is_Some (m !! declared))); simpl;
      [| discriminate].
    unfold lift. intros [= Hwalk _].
    apply walk_chain_true in Hwalk as [Hsame | (s & c & _ & _ & Hctx)];
      congruence.
Qed.

(** * Further properties of the visit methods *)

(** ** Type inference has no effect but marking variables used *)

Lemma only_marks_used_refl st : only_marks_used st st.
Proof. repeat split; reflexivity. Qed.

Lemma only_marks_used_trans a b c :
  only_marks_used a b -> only_marks_used b c -> only_marks_used a c.
Proof.
  intros (Ht1 & Hm1 & Ho1 & Hu1) (Ht2 & Hm2 & Ho2 & Hu2).
  repeat split; try congruence. set_solver.
Qed.

Lemma only_marks_used_with_used k st : only_marks_used st (with_used k st).
Proof. repeat split; simpl; try reflexivity. set_solver. Qed.

Lemma forallb_Forall_impl (f : tree -> bool) (Q : tree -> Prop) nodes :
  forallb f nodes = true ->
  Forall (fun t => f t = true -> Q t) nodes -> Forall Q nodes.
Proof.
  intros Hall H. induction H as [| t ts Ht _ IH]; [constructor |].
  simpl in Hall. apply andb_prop in Hall as [H1 H2]. constructor; auto.
Qed.

Lemma expression_respects t :
  expression_only t = true -> respects only_marks_used (visit t).
Proof.
  induction t as
    [ | cs IH | ss IH | s e IH | s n ty e c IHe IHc | s n e IH
    | s n ty ps b rs IHb IHrs | s n i p fs ms IH | a IH | s ms IH | s ts IH
    | s n l a b e txt IHl IHa IHb IHe | c f s txt ]
    using tree_nested_ind; intros Ht; try discriminate Ht; cbn [visit].
  - apply respects_ret, only_marks_used_refl.
  - apply respects_visitChildren_from;
      [ apply only_marks_used_refl | apply only_marks_used_trans
      | eapply forallb_Forall_impl; [exact Ht | exact IH] ].
  - apply IH, Ht.
  - unfold visitAdditiveExpression. simpl.
    apply respects_visit_binary;
      [ apply only_marks_used_refl | apply only_marks_used_trans
      | eapply forallb_Forall_impl; [exact Ht | exact IH] ].
  - unfold visitMultiplicativeExpression. simpl.
    apply respects_visit_binary;
      [ apply only_marks_used_refl | apply only_marks_used_trans
      | eapply forallb_Forall_impl; [exact Ht | exact IH] ].
  - simpl in Ht. apply andb_prop in Ht as [Ht He].
    apply andb_prop in Ht as [Ht Hb]. apply andb_prop in Ht as [Hl Ha].
    apply respects_visitTerm;
      [ apply only_marks_used_refl | apply only_marks_used_trans
      | apply only_marks_used_with_used | ].
    intros child [-> | [-> | [-> | ->]]]; simpl in *; auto.
  - apply respects_visitLiteral, only_marks_used_refl.
Qed.

(** X1: Visiting an expression tree never writes the symbol table, the
    inheritance map or the output, whether it succeeds or raises; the used
    set can only grow. *)
Theorem expression_only_marks_used t st :
  expression_only t = true ->
  symbol_table (visit t st).2 = symbol_table st /\
  inheritance_map (visit t st).2 = inheritance_map st /\
  stdout (visit t st).2 = stdout st /\
  used_variables st ⊆ used_variables (visit t st).2.
Proof.
  intros Ht.
  destruct (expression_respects t Ht st) as (Htab & Hmap & Hout & Hused).
  repeat split; assumption.
Qed.

Lemma expression_only_marks_used_witness :
  symbol_table
    (visit (Sample.expression_of 2 5 (Sample.variable_term 2 5 "$x"))
       (analyse Sample.declare_x).2).2 =
  symbol_table (analyse Sample.declare_x).2.
Proof.
  apply (expression_only_marks_used
           (Sample.expression_of 2 5 (Sample.variable_term 2 5 "$x"))
           (analyse Sample.declare_x).2).
  reflexivity.
Defined.

(** ** Nothing is ever removed *)

(** X2: Whatever a visit does and however it ends, every key of the symbol
    table is still a key, every used name is still used, and the output so
    far is a prefix of the output afterwards. *)
Theorem visit_only_grows t st :
  (forall k, Dict.mem k (symbol_table st) = true ->
             Dict.mem k (symbol_table (visit t st).2) = true) /\
  used_variables st ⊆ used_variables (visit t st).2 /\
  stdout st `prefix_of` stdout (visit t st).2.
Proof.
  revert st. change (respects
    (fun st st' =>
       (forall k, Dict.mem k (symbol_table st) = true ->
                  Dict.mem k (symbol_table st') = true) /\
       used_variables st ⊆ used_variables st' /\
       stdout st `prefix_of` stdout st') (visit t)).
  apply (visit_respects _ true).
  - intros st. repeat split; auto.
  - intros a b c (Hk1 & Hu1 & Ho1) (Hk2 & Hu2 & Ho2).
    repeat split; [auto | set_solver | etrans; eassumption].
  - intros k st. repeat split; simpl; [auto | set_solver | reflexivity].
  - intros p st. repeat split; simpl; [auto | | apply prefix_app_r];
      reflexivity.
  - intros k v st _ _. repeat split; simpl; [| reflexivity | reflexivity].
    intros k'. apply dict_mem_set.
  - intros _ k v st. repeat split; simpl; [| reflexivity | reflexivity].
    intros k'. apply dict_mem_set.
  - intros k v m st _. repeat split; simpl; auto.
  - reflexivity.
Qed.

(** ** Used names are declared names *)

(** The preservation argument again, for relations that marking a name used
    maintains only when the name is a key of the symbol table: both places
    that mark a name have just looked it up. *)
Section GuardedPreservation.

Variable R : state -> state -> Prop.

Hypothesis R_refl : forall st, R st st.
Hypothesis R_trans : forall a b c, R a b -> R b c -> R a c.
Hypothesis R_used : forall k st,
  Dict.mem k (symbol_table st) = true -> R st (with_used k st).
Hypothesis R_print : forall p st, R st (with_print p st).
Hypothesis R_symbol : forall k v st, R st (with_symbol k v st).
Hypothesis R_parent : forall k v m st,
  inheritance_map st = Some m -> R st (with_parent k v m st).

Lemma guarded_visitTerm (v : tree -> M pytype) start name l a b e txt :
  (forall child, l = Some child \/ a = Some child \/ b = Some child
                 \/ e = Some child -> respects R (v child)) ->
  respects R (visitTerm v start name l a b e txt).
Proof.
  intros H. unfold visitTerm. destruct name as [var_name |].
  - apply (respects_get R). intros st.
    destruct (Dict.get var_name (symbol_table st)) as [info |] eqn:Hget;
      [| apply R_refl].
    unfold bind, markVariableAsUsed, modify, ret. simpl.
    apply R_used. unfold Dict.mem. rewrite Hget. reflexivity.
  - destruct l; [apply H; auto |]. destruct a; [apply H; auto |].
    destruct b; [apply H; auto |]. destruct e; [apply H; auto |].
    intros st. apply R_refl.
Qed.

Lemma guarded_visitAssignment (v : tree -> M pytype) start name e :
  respects R (v e) -> respects R (visitAssignment v start name e).
Proof.
  intros H. unfold visitAssignment. simpl.
  apply (respects_get R). intros st.
  destruct (Dict.get name (symbol_table st)) as [d |] eqn:Hget;
    [| apply R_refl].
  unfold bind at 1. simpl. eapply R_trans.
  { apply R_used. unfold Dict.mem. rewrite Hget. reflexivity. }
  apply (respects_bind R R_trans); [exact H |]. intros ty.
  apply (respects_bind R R_trans);
    [apply (respects_is_type_compatible R R_refl R_trans) |].
  intros [|] st1; apply R_refl.
Qed.

Theorem visit_respects_guarded t : respects R (visit t).
Proof.
  assert (Hopt : forall o t',
    P_option (fun t => respects R (visit t)) o -> o = Some t' ->
    respects R (visit t')).
  { intros o t' H ->. exact H. }
  induction t as
    [ | cs IH | ss IH | s e IH | s n ty e c IHe IHc | s n e IH
    | s n ty ps b rs IHb IHrs | s n i p fs ms IH | a IH | s ms IH | s ts IH
    | s n l a b e txt IHl IHa IHb IHe | c f s txt ]
    using tree_nested_ind; cbn [visit].
  - intros st. apply R_refl.
  - apply (respects_visitChildren_from R R_refl R_trans), IH.
  - apply (respects_visitProgram R R_refl R_trans R_print), IH.
  - apply (respects_visitShowStatement R R_refl R_trans R_print), IH.
  - apply (respects_visitVariableDeclaration R R_refl R_trans).
    + intros k v st _ _. apply R_symbol.
    + intros i [Hi | Hi]; [apply (Hopt e) | apply (Hopt c)]; auto.
  - apply guarded_visitAssignment, IH.
  - apply (respects_visitMethodDeclaration R true R_refl R_trans);
      [intros _; apply R_symbol | auto | exact IHb |].
    intros [rstart rexpr] ->. exact IHrs.
  - apply (respects_visitClassDeclaration R true R_refl R_trans);
      [intros _; apply R_symbol | exact R_parent | auto |].
    eapply Forall_impl; [exact IH |]. intros m IHm.
    destruct m; try (intros st; apply R_refl). exact IHm.
  - exact IH.
  - unfold visitAdditiveExpression. simpl.
    apply (respects_visit_binary R R_refl R_trans), IH.
  - unfold visitMultiplicativeExpression. simpl.
    apply (respects_visit_binary R R_refl R_trans), IH.
  - apply guarded_visitTerm.
    intros child [Hc | [Hc | [Hc | Hc]]];
      [ apply (Hopt l) | apply (Hopt a) | apply (Hopt b) | apply (Hopt e) ];
      auto.
  - apply (respects_visitLiteral R R_refl).
Qed.

End GuardedPreservation.

(** X3: If every used name is declared before a visit, every used name is
    declared after it: names are marked used only after they were found in
    the symbol table, and keys are never removed.  In particular this holds
    at the end of every run. *)
Theorem used_names_stay_declared t st :
  used_are_declared st -> used_are_declared (visit t st).2.
Proof.
  revert st. change (respects
    (fun st st' => used_are_declared st -> used_are_declared st') (visit t)).
  apply visit_respects_guarded; unfold used_are_declared.
  - auto.
  - auto.
  - intros k st Hk H k'. simpl. rewrite elem_of_union, elem_of_singleton.
    intros [-> | Hk']; auto.
  - intros p st H. exact H.
  - intros k v st H k' Hk'. simpl. apply dict_mem_set. auto.
  - intros k v m st _ H. exact H.
Qed.

Lemma used_names_stay_declared_witness :
  used_are_declared
    (analyse (ProgramContext [Sample.statement Sample.declare_x;
                              Sample.statement Sample.show_x])).2.
Proof.
  apply (used_names_stay_declared
           (ProgramContext [Sample.statement Sample.declare_x;
                            Sample.statement Sample.show_x]) init).
  intros k Hk. vm_compute in Hk. set_solver.
Defined.

(** ** Names that are not declared *)

(** X4: A reference to a name that is not a key of the symbol table, and an
    assignment to such a name, raise the undeclared-variable error with the
    name and the node's position.  Nothing is changed, and the right-hand
    side of the assignment is not visited. *)
Theorem undeclared_name_raises st name :
  Dict.mem name (symbol_table st) = false ->
  (forall start l a b e txt,
     visit (TermContext start (Some name) l a b e txt) st =
       (inl (TermUndeclared name (tok_line <$> start) (tok_column <$> start)),
        st)) /\
  (forall start e,
     visit (AssignmentContext start name e) st =
       (inl (AssignmentUndeclared name (tok_line <$> start)
               (tok_column <$> start)), st)) /\
  (forall l c, kind_of (TermUndeclared name l c) = UndeclaredVariableError /\
               kind_of (AssignmentUndeclared name l c) =
               UndeclaredVariableError).
Proof.
  intros Hmem. unfold Dict.mem in Hmem.
  destruct (Dict.get name (symbol_table st)) eqn:Hget; [discriminate |].
  split; [| split].
  - intros start l a b e txt. cbn [visit]. unfold visitTerm, bind. simpl.
    rewrite Hget. reflexivity.
  - intros start e. cbn [visit]. unfold visitAssignment. simpl.
    unfold bind at 1. simpl. rewrite Hget. reflexivity.
  - intros l c. split; reflexivity.
Qed.

Lemma undeclared_name_raises_witness :
  visit Sample.assign_x init =
    (inl (AssignmentUndeclared "$x" (Some 2) (Some 0)), init).
Proof.
  refine (proj1 (proj2 (undeclared_name_raises init "$x" eq_refl)) _ _).
Defined.

(** ** Declaring, then reading *)

Lemma dict_set_absent k v d :
  Dict.mem k d = false -> Dict.set k v d = d ++ [(k, v)].
Proof.
  unfold Dict.mem. induction d as [| [k0 v0] d IH]; simpl; [reflexivity |].
  destruct (decide (k = k0)); [discriminate |].
  intros H. rewrite (IH H). reflexivity.
Qed.

(** X5: A successful declaration whose initializer, if any, is an expression
    tree appends exactly one entry, the declared type with the declaration's
    line, at the end of the symbol table; a reference to the variable then
    infers the declared type and marks the variable used. *)
Theorem declared_variable_infers_its_type start name ty e c st r st' :
  valid_name name = true -> Dict.mem name (symbol_table st) = false ->
  on_option expression_only e && on_option expression_only c = true ->
  visit (VariableDeclarationContext start name ty e c) st = (inr r, st') ->
  symbol_table st' =
    symbol_table st ++ [(name, Entry ty (tok_line <$> start))] /\
  forall s l a b e' txt,
    visit (TermContext s (Some name) l a b e' txt) st' =
      (inr (Some ty), with_used name st').
Proof.
  intros Hvalid Hmem Hexpr Hvisit.
  apply andb_prop in Hexpr as [He Hc].
  assert (Htable : symbol_table st' =
            symbol_table st ++ [(name, Entry ty (tok_line <$> start))]).
  { rewrite (visitVariableDeclaration_fresh _ _ _ _ _ _ Hvalid Hmem)
      in Hvisit. cbv zeta in Hvisit.
    rewrite <- (dict_set_absent _ _ _ Hmem).
    assert (Hinit : forall i, expression_only i = true ->
      match visit i (with_symbol name (Entry ty (tok_line <$> start)) st) with
      | (inr init_type, st2) =>
          (if decide (init_type = Some ty) then inr None
           else inl (InitializerMismatch init_type ty name
                       (tok_line <$> start) (tok_column <$> start)), st2)
      | (inl err, st2) => (inl err, st2)
      end = (inr r, st') ->
      symbol_table st' =
        Dict.set name (Entry ty (tok_line <$> start)) (symbol_table st)).
    { intros i Hi Hres.
      destruct (expression_respects i Hi
                  (with_symbol name (Entry ty (tok_line <$> start)) st))
        as (Htab & _).
      destruct (visit i _) as [[err | init_type] st2]; [discriminate |].
      injection Hres as _ <-. exact Htab. }
    destruct e as [i |]; [apply (Hinit i He Hvisit) |].
    destruct c as [i |]; [apply (Hinit i Hc Hvisit) |].
    injection Hvisit as _ <-. reflexivity. }
  split; [exact Htable |].
  intros s l a b e' txt. cbn [visit]. unfold visitTerm, bind. simpl.
  assert (Hget : Dict.get name (symbol_table st') =
                   Some (Entry ty (tok_line <$> start))).
  { rewrite Htable, <- (dict_set_absent _ _ _ Hmem), dict_get_set.
    case_decide; [reflexivity | congruence]. }
  rewrite Hget. reflexivity.
Qed.

Lemma declared_variable_infers_its_type_witness :
  symbol_table (analyse Sample.declare_x).2 =
    [("$x", Entry "chunk" (Some 1))] /\
  forall s l a b e' txt,
    visit (TermContext s (Some "$x") l a b e' txt)
      (analyse Sample.declare_x).2 =
      (inr (Some "chunk"), with_used "$x" (analyse Sample.declare_x).2).
Proof.
  apply (declared_variable_infers_its_type (Sample.at_ 1 0) "$x" "chunk"
           (Some (Sample.expression_of 1 12
                    (Sample.literal_term 1 12 Sample.chunk_literal)))
           None init None); reflexivity.
Defined.

(** ** Binary nodes with any number of operands *)

Lemma fold_operands_numeric mismatch left_type operands st types st' :
  is_numeric left_type ->
  visit_operands operands st = (inr types, st') ->
  Forall is_numeric types ->
  fold_operands visit mismatch left_type operands st =
    (inr (widest (left_type :: types)), st').
Proof.
  revert left_type st types.
  induction operands as [| operand rest IH]; intros left_type st types
    Hleft Hvisit Hnum.
  - simpl in Hvisit. injection Hvisit as <- <-. simpl.
    unfold ret, widest. f_equal. f_equal.
    destruct Hleft as [-> | ->]; case_decide as Hin; try reflexivity;
      [apply list_elem_of_singleton in Hin; discriminate |].
    exfalso. apply Hin. apply list_elem_of_singleton. reflexivity.
  - cbn [visit_operands] in Hvisit. unfold bind at 1 in Hvisit.
    cbn [fold_operands]. unfold bind at 1.
    destruct (visit operand st) as [[err | right_type] st1];
      [discriminate |].
    unfold bind at 1 in Hvisit.
    destruct (visit_operands rest st1) as [[err | types'] st2] eqn:Hrest;
      [discriminate |].
    injection Hvisit as <- <-.
    apply Forall_cons in Hnum as [Hright Hnum].
    assert (Hstep : exists l',
      promote left_type right_type = (l', l') /\ is_numeric l' /\
      widest (left_type :: right_type :: types') = widest (l' :: types')).
    { unfold widest.
      destruct Hleft as [-> | ->], Hright as [-> | ->];
        [ exists (Some "chunk") | exists (Some "fraction")
        | exists (Some "fraction") | exists (Some "fraction") ];
        (split; [reflexivity |]);
        (split; [unfold is_numeric; auto |]);
        repeat case_decide; try reflexivity;
        repeat match goal with
        | H : _ ∈ _ :: _ |- _ => apply elem_of_cons in H as [H | H]
        | H : ~ _ ∈ _ :: _ |- _ => rewrite !elem_of_cons in H
        end; try discriminate; tauto. }
    destruct Hstep as (l' & Hpromote & Hl' & Hwidest).
    rewrite Hpromote. rewrite decide_False by auto.
    rewrite Hwidest. apply IH; assumption.
Qed.

(** X6: A sum or a product of any number of operands that all infer to [chunk]
    or [fraction] never raises a mismatch: it infers to [fraction] when some
    operand is a [fraction] and to [chunk] otherwise, wherever the
    [fraction] stands. *)
Theorem numeric_operands_widen start operands st types st' :
  visit_operands operands st = (inr types, st') ->
  operands <> [] -> Forall is_numeric types ->
  visit (AdditiveExpressionContext start operands) st =
    (inr (widest types), st') /\
  visit (MultiplicativeExpressionContext start operands) st =
    (inr (widest types), st').
Proof.
  intros Hvisit Hne Hnum.
  assert (Hbinary : forall mismatch,
    visit_binary visit mismatch operands st = (inr (widest types), st')).
  { intros mismatch. destruct operands as [| first rest]; [congruence |].
    cbn [visit_operands] in Hvisit. unfold bind at 1 in Hvisit.
    destruct (visit first st) as [[err | t] st1] eqn:Hfirst;
      [discriminate |].
    unfold bind at 1 in Hvisit.
    destruct (visit_operands rest st1) as [[err | types'] st2] eqn:Hrest;
      [discriminate |].
    injection Hvisit as <- <-.
    apply Forall_cons in Hnum as [Ht Hnum].
    destruct rest as [| second rest].
    - simpl in Hrest. injection Hrest as <- <-. simpl. rewrite Hfirst.
      f_equal. f_equal. unfold widest.
      destruct Ht as [-> | ->]; case_decide as Hin; try reflexivity;
        [apply list_elem_of_singleton in Hin; discriminate |].
      exfalso. apply Hin. apply list_elem_of_singleton. reflexivity.
    - change (visit_binary visit mismatch (first :: second :: rest) st)
        with ((left_type <- visit first ;;
               fold_operands visit mismatch left_type (second :: rest)) st).
      unfold bind at 1. rewrite Hfirst.
      apply fold_operands_numeric; assumption. }
  split; cbn [visit];
    [unfold visitAdditiveExpression | unfold visitMultiplicativeExpression];
    simpl; apply Hbinary.
Qed.

Lemma numeric_operands_widen_witness :
  visit (AdditiveExpressionContext (Sample.at_ 1 0)
           [Sample.multiplicative_of 1 0
              (Sample.literal_term 1 0 Sample.chunk_literal);
            Sample.multiplicative_of 1 4
              (Sample.literal_term 1 4 Sample.chunk_literal);
            Sample.multiplicative_of 1 8
              (Sample.literal_term 1 8 Sample.fraction_literal);
            Sample.multiplicative_of 1 14
              (Sample.literal_term 1 14 Sample.chunk_literal)]) init =
    (inr (Some "fraction"), init).
Proof.
  refine (proj1 (numeric_operands_widen (Sample.at_ 1 0)
    [Sample.multiplicative_of 1 0
       (Sample.literal_term 1 0 Sample.chunk_literal);
     Sample.multiplicative_of 1 4
       (Sample.literal_term 1 4 Sample.chunk_literal);
     Sample.multiplicative_of 1 8
       (Sample.literal_term 1 8 Sample.fraction_literal);
     Sample.multiplicative_of 1 14
       (Sample.literal_term 1 14 Sample.chunk_literal)] init
    [Some "chunk"; Some "chunk"; Some "fraction"; Some "chunk"] init
    eq_refl _ _)).
  - discriminate.
  - repeat (apply List.Forall_cons; [unfold is_numeric; auto |]).
    apply List.Forall_nil.
Defined.

Lemma promote_same ty : promote ty ty = (ty, ty).
Proof.
  unfold promote. repeat case_decide; try reflexivity;
    destruct_and?; congruence.
Qed.

Lemma fold_operands_uniform mismatch ty operands st types st' :
  visit_operands operands st = (inr types, st') ->
  Forall (eq ty) types ->
  fold_operands visit mismatch ty operands st = (inr ty, st').
Proof.
  revert st types.
  induction operands as [| operand rest IH]; intros st types Hvisit Hall.
  - simpl in Hvisit. injection Hvisit as _ <-. reflexivity.
  - cbn [visit_operands] in Hvisit. unfold bind at 1 in Hvisit.
    cbn [fold_operands]. unfold bind at 1.
    destruct (visit operand st) as [[err | right_type] st1];
      [discriminate |].
    unfold bind at 1 in Hvisit.
    destruct (visit_operands rest st1) as [[err | types'] st2] eqn:Hrest;
      [discriminate |].
    injection Hvisit as <- <-.
    apply Forall_cons in Hall as [<- Hall].
    rewrite promote_same. rewrite decide_False by auto.
    apply (IH st1 types'); assumption.
Qed.

(** X7: Operands that all infer to one and the same type, whichever it is
    (a string, a class name, even [None]), can be added and multiplied: the
    node infers to that type.  The checker has no rule about which types an
    operator accepts. *)
Theorem uniform_operands_keep_type start operands st ty types st' :
  visit_operands operands st = (inr (ty :: types), st') ->
  Forall (eq ty) types ->
  visit (AdditiveExpressionContext start operands) st = (inr ty, st') /\
  visit (MultiplicativeExpressionContext start operands) st = (inr ty, st').
Proof.
  intros Hvisit Hall.
  assert (Hbinary : forall mismatch,
    visit_binary visit mismatch operands st = (inr ty, st')).
  { intros mismatch. destruct operands as [| first rest];
      [discriminate |].
    cbn [visit_operands] in Hvisit. unfold bind at 1 in Hvisit.
    destruct (visit first st) as [[err | t] st1] eqn:Hfirst;
      [discriminate |].
    unfold bind at 1 in Hvisit.
    destruct (visit_operands rest st1) as [[err | types'] st2] eqn:Hrest;
      [discriminate |].
    injection Hvisit as -> -> ->.
    destruct rest as [| second rest].
    - simpl in Hrest. injection Hrest as _ <-. simpl. exact Hfirst.
    - change (visit_binary visit mismatch (first :: second :: rest) st)
        with ((left_type <- visit first ;;
               fold_operands visit mismatch left_type (second :: rest)) st).
      unfold bind at 1. rewrite Hfirst.
      apply (fold_operands_uniform _ _ _ _ types); assumption. }
  split; cbn [visit];
    [unfold visitAdditiveExpression | unfold visitMultiplicativeExpression];
    simpl; apply Hbinary.
Qed.

Lemma uniform_operands_keep_type_witness :
  visit (MultiplicativeExpressionContext (Sample.at_ 1 0)
           [Sample.literal_term 1 0 Sample.string_literal;
            Sample.literal_term 1 6 Sample.string_literal]) init =
    (inr (Some "string"), init).
Proof.
  refine (proj2 (uniform_operands_keep_type (Sample.at_ 1 0)
    [Sample.literal_term 1 0 Sample.string_literal;
     Sample.literal_term 1 6 Sample.string_literal] init
    (Some "string") [Some "string"] init eq_refl _)).
  apply List.Forall_cons; [reflexivity | apply List.Forall_nil].
Defined.

(** ** Method parameters and class fields *)

Lemma register_signatures_spec tok signatures st :
  exists st',
    register_signatures (Some tok) signatures st = (inr tt, st') /\
    used_variables st' = used_variables st /\
    inheritance_map st' = inheritance_map st /\
    stdout st' = stdout st /\
    forall k,
      Dict.get k (symbol_table st') =
      match signature_type k signatures with
      | Some ty => Some (Entry ty (Some (tok_line tok)))
      | None => Dict.get k (symbol_table st)
      end.
Proof.
  revert st. induction signatures as [| [name ty] rest IH]; intros st.
  - exists st. repeat split; reflexivity.
  - cbn [register_signatures]. unfold bind at 1. simpl.
    unfold bind at 1. simpl.
    destruct (IH (with_symbol name (Entry ty (Some (tok_line tok))) st))
      as (st' & Hrun & Hused & Hmap & Hout & Hget).
    exists st'. split; [exact Hrun |].
    split; [exact Hused |]. split; [exact Hmap |]. split; [exact Hout |].
    intros k. rewrite Hget. simpl.
    destruct (signature_type k rest); [reflexivity |].
    rewrite dict_get_set. case_decide; reflexivity.
Qed.





(** X10: A method whose name is a key of the symbol table, or the name of one of
    its own parameters, is rejected as already declared.  The parameters
    were stored before the test and stay stored; the body is not visited. *)
Theorem method_name_clash tok name rty ps b rs st :
  Dict.mem name (symbol_table st) = true \/
  is_Some (signature_type name ps) ->
  visit (MethodDeclarationContext (Some tok) name rty ps b rs) st =
    (inl (MethodRedeclared name (Some (tok_line tok))
            (Some (tok_column tok))),
     (register_signatures (Some tok) ps st).2).
Proof.
  intros Hclash.
  destruct (register_signatures_spec tok ps st)
    as (st1 & Hrun & _ & _ & _ & Hget).
  assert (Hmem1 : Dict.mem name (symbol_table st1) = true).
  { unfold Dict.mem in *. rewrite Hget.
    destruct (signature_type name ps); [reflexivity |].
    destruct Hclash as [Hmem | [t Ht]]; [exact Hmem | discriminate]. }
  cbn [visit]. unfold visitMethodDeclaration.
  unfold bind at 1. rewrite Hrun. unfold bind at 1. simpl.
  rewrite Hmem1. reflexivity.
Qed.

Lemma method_name_clash_witness :
  visit (MethodDeclarationContext (Sample.at_ 2 0) "$x" "chunk"
           [("$p", "string")] (RuleContext []) None)
    (analyse Sample.declare_x).2 =
    (inl (MethodRedeclared "$x" (Some 2) (Some 0)),
     with_symbol "$p" (Entry "string" (Some 2)) (analyse Sample.declare_x).2).
Proof.
  apply (method_name_clash (Token 2 0) "$x" "chunk" [("$p", "string")]
           (RuleContext []) None (analyse Sample.declare_x).2).
  left. reflexivity.
Defined.

(** ** Class declarations *)

(** X11: While the checker has no inheritance map, which is the case throughout
    every run, a class declaration raises and changes nothing: the
    redeclaration error when the class name is a key of the symbol table,
    the missing-attribute error otherwise.  No field is stored and no method
    of the class is visited. *)
Theorem class_declaration_always_raises start name i p fs ms st :
  inheritance_map st = None ->
  visit (ClassDeclarationContext start name i p fs ms) st =
    (inl (if Dict.mem name (symbol_table st)
          then ClassRedeclared name (tok_line <$> start)
                 (tok_column <$> start)
          else AttributeError "TypeChecker" "inheritance_map"), st).
Proof.
  intros Hmap. cbn [visit]. unfold visitClassDeclaration.
  unfold bind at 1. simpl.
  destruct (Dict.mem name (symbol_table st)); [reflexivity |].
  unfold bind at 1, read_inheritance_map. unfold bind at 1. simpl.
  rewrite Hmap. reflexivity.
Qed.

Lemma class_declaration_always_raises_witness :
  visit (ClassDeclarationContext (Sample.at_ 2 0) "Point" None None
           [("$px", "chunk")] [Sample.empty_method 3 "norm"])
    (analyse Sample.declare_x).2 =
    (inl (AttributeError "TypeChecker" "inheritance_map"),
     (analyse Sample.declare_x).2).
Proof.
  apply (class_declaration_always_raises (Sample.at_ 2 0) "Point" None None
           [("$px", "chunk")] [Sample.empty_method 3 "norm"]
           (analyse Sample.declare_x).2).
  reflexivity.
Defined.

(** ** Compatibility *)

(** X12: [is_type_compatible] never changes the checker's state; a value is
    compatible with itself without the inheritance map being read; and two
    type names are compatible only when they are the same name, because the
    walk goes through the stored context objects, which are never equal to a
    name. *)
Theorem is_type_compatible_facts :
  (forall d e st, (is_type_compatible d e st).2 = st) /\
  (forall d st, is_type_compatible d d st = (inr true, st)) /\
  (forall declared expr st,
     (is_type_compatible (PyStr declared) (PyStr expr) st).1 = inr true <->
     declared = expr).
Proof.
  assert (Hsame : forall d st, is_type_compatible d d st = (inr true, st)).
  { intros d st. unfold is_type_compatible, py_eq.
    rewrite bool_decide_eq_true_2 by reflexivity. reflexivity. }
  assert (Hstate : forall d e st, (is_type_compatible d e st).2 = st).
  { intros d e st. unfold is_type_compatible.
    destruct (py_eq d e); [reflexivity |].
    unfold bind at 1, read_inheritance_map. unfold bind at 1. simpl.
    destruct (inheritance_map st) as [m |]; simpl; [| reflexivity].
    unfold bind at 1, lift at 1.
    destruct (inheritance_mem m d) as [err | [|]]; reflexivity. }
  split; [exact Hstate |]. split; [exact Hsame |].
  intros declared expr st. split.
  - intros Hres. apply (is_type_compatible_names declared expr st st).
    rewrite <- (Hstate (PyStr declared) (PyStr expr) st) at 2.
    rewrite <- Hres. destruct (is_type_compatible _ _ st); reflexivity.
  - intros ->. rewrite Hsame. reflexivity.
Qed.

(** ** Sequences of statements *)

(** X13: Visiting a sequence of statements is visiting a first part and then,
    from the state it leaves, the rest; an error in the first part is the
    outcome and the rest is not visited.  The children of a node with an
    inherited visit method compose the same way, the result being the last
    one obtained. *)
Theorem visits_compose first rest st :
  visit_each visit (first ++ rest) st =
    match visit_each visit first st with
    | (inr _, st1) => visit_each visit rest st1
    | (inl err, st1) => (inl err, st1)
    end /\
  forall result,
    visitChildren_from visit result (first ++ rest) st =
      match visitChildren_from visit result first st with
      | (inr r, st1) => visitChildren_from visit r rest st1
      | (inl err, st1) => (inl err, st1)
      end.
Proof.
  revert st. induction first as [| s first IH]; intros st.
  - split; reflexivity.
  - split.
    + cbn [app visit_each]. unfold bind.
      destruct (visit s st) as [[err | r] st1]; [reflexivity |].
      apply (IH st1).
    + intros result. cbn [app visitChildren_from]. unfold bind.
      destruct (visit s st) as [[err | r] st1]; [reflexivity |].
      apply (IH st1).
Qed.

(** ** A program of declarations *)

Lemma dict_keys_app (d1 d2 : Dict.t) :
  Dict.keys (d1 ++ d2) = Dict.keys d1 ++ Dict.keys d2.
Proof. unfold Dict.keys. apply fmap_app. Qed.

Lemma declare_each ds st :
  NoDup (Dict.keys (symbol_table st) ++ ds.*1.*1) ->
  Forall (fun d => valid_name d.1.1 = true) ds ->
  visit_each visit (bare_declaration <$> ds) st =
    (inr tt,
     {| symbol_table := symbol_table st ++ (declared_entry <$> ds);
        used_variables := used_variables st;
        inheritance_map := inheritance_map st;
        stdout := stdout st |}).
Proof.
  revert st. induction ds as [| [[name ty] l] ds IH]; intros st Hnodup Hvalid.
  - simpl. rewrite app_nil_r. destruct st; reflexivity.
  - apply Forall_cons in Hvalid as [Hname Hvalid]. simpl in Hname.
    assert (Hmem : Dict.mem name (symbol_table st) = false).
    { destruct (Dict.mem name (symbol_table st)) eqn:Hm; [| reflexivity].
      apply dict_mem_keys in Hm. apply NoDup_app in Hnodup as (_ & Hdisj & _).
      exfalso. apply (Hdisj name Hm). simpl. apply list_elem_of_here. }
    rewrite fmap_cons. cbn [visit_each]. unfold bind at 1.
    unfold bare_declaration at 1.
    change (visit (RuleContext ?cs) st) with (visitChildren visit cs st).
    unfold visitChildren. cbn [visitChildren_from]. unfold bind at 1.
    simpl fst. simpl snd.
    rewrite (visitVariableDeclaration_fresh _ _ _ _ _ _ Hname Hmem).
    cbv zeta. unfold ret. cbv iota beta.
    rewrite IH; [| | exact Hvalid].
    + simpl. rewrite (dict_set_absent _ _ _ Hmem), <- app_assoc.
      reflexivity.
    + simpl. rewrite (dict_set_absent _ _ _ Hmem), dict_keys_app.
      rewrite <- app_assoc. exact Hnodup.
Qed.

Lemma filter_none_used (used : gset string) (items : Dict.t) :
  used = ∅ ->
  filter (fun kv : string * entry => kv.1 ∉ used) items = items.
Proof.
  intros ->. induction items as [| kv items IH]; [reflexivity |].
  rewrite filter_cons, decide_True by set_solver. rewrite IH. reflexivity.
Qed.

(** X14: A program that only declares variables, without initializers, under
    valid and pairwise different names is accepted: the symbol table holds
    the declarations in program order, nothing is marked used, and the
    output is one unused-variable warning for each declaration, in program
    order, with its line. *)
Theorem declarations_only_program ds :
  NoDup ds.*1.*1 ->
  Forall (fun d => valid_name d.1.1 = true) ds ->
  analyse (ProgramContext (bare_declaration <$> ds)) =
    (inr None,
     {| symbol_table := declared_entry <$> ds;
        used_variables := ∅;
        inheritance_map := None;
        stdout := (fun d => UnusedWarning d.1.1 (Some d.2)) <$> ds |}).
Proof.
  intros Hnodup Hvalid. unfold analyse. cbn [visit]. unfold visitProgram.
  unfold bind at 1.
  rewrite (declare_each ds init); [| exact Hnodup | exact Hvalid].
  unfold bind at 1. simpl. unfold bind at 1.
  rewrite warn_unused_prints, filter_none_used by reflexivity.
  unfold print_all. simpl. f_equal. f_equal.
  rewrite <- list_fmap_compose. reflexivity.
Qed.

Lemma declarations_only_program_witness :
  analyse (ProgramContext
             (bare_declaration <$> [("$a", "chunk", 1); ("$b", "string", 2)]))
  = (inr None,
     {| symbol_table := [("$a", Entry "chunk" (Some 1));
                         ("$b", Entry "string" (Some 2))];
        used_variables := ∅;
        inheritance_map := None;
        stdout := [UnusedWarning "$a" (Some 1);
                   UnusedWarning "$b" (Some 2)] |}).
Proof.
  apply (declarations_only_program
           [("$a", "chunk", 1); ("$b", "string", 2)]).
  - simpl. refine (bool_decide_unpack _ _). vm_compute. exact I.
  - repeat (apply List.Forall_cons; [reflexivity |]). apply List.Forall_nil.
Defined.

(** ** One namespace *)

Lemma visit_each_keeps_keys statements st k :
  Dict.mem k (symbol_table st) = true ->
  Dict.mem k (symbol_table (visit_each visit statements st).2) = true.
Proof.
  revert st. change (respects
    (fun st st' => Dict.mem k (symbol_table st) = true ->
                   Dict.mem k (symbol_table st') = true)
    (visit_each visit statements)).
  apply respects_visit_each; [auto | auto |].
  apply Forall_forall. intros t _ st. apply visit_keeps_keys.
Qed.

(** X17: Once a variable declaration has succeeded, every later declaration of a
    variable under the same name is rejected as a redeclaration and changes
    nothing, whatever was visited in between and whatever type or
    initializer the later declaration has. *)
Theorem variable_redeclaration_later_rejected
    s1 name ty1 e1 c1 st r st1 between s2 ty2 e2 c2 :
  visit (VariableDeclarationContext s1 name ty1 e1 c1) st = (inr r, st1) ->
  let st2 := (visit_each visit between st1).2 in
  visit (VariableDeclarationContext s2 name ty2 e2 c2) st2 =
    (inl (VariableRedeclared name), st2) /\
  kind_of (VariableRedeclared name) = RedeclarationError.
Proof.
  intros Hfirst st2. split; [| reflexivity].
  assert (Hvalid : valid_name name = true).
  { unfold valid_name. cbn [visit] in Hfirst.
    unfold visitVariableDeclaration in Hfirst. simpl in Hfirst.
    destruct (startswith_sigil name); [| discriminate].
    destruct (valid_variable_pattern (drop_first name));
      [reflexivity | discriminate]. }
  assert (Hkey : Dict.mem name (symbol_table st1) = true).
  { destruct (Dict.mem name (symbol_table st)) eqn:Hmem.
    - rewrite (variable_redeclaration_rejected _ _ _ _ _ _ Hvalid Hmem)
        in Hfirst. discriminate.
    - rewrite (visitVariableDeclaration_fresh _ _ _ _ _ _ Hvalid Hmem)
        in Hfirst. cbv zeta in Hfirst.
      assert (Hstored : Dict.mem name (symbol_table
                (with_symbol name (Entry ty1 (tok_line <$> s1)) st)) = true).
      { unfold Dict.mem. simpl. rewrite dict_get_set.
        case_decide; [reflexivity | congruence]. }
      destruct e1 as [i |]; [| destruct c1 as [i |]];
        [ | | injection Hfirst as _ <-; exact Hstored ];
        pose proof (visit_keeps_keys i _ name Hstored) as Hkeep;
        destruct (visit i _) as [[err | t] st']; try discriminate;
        destruct (decide (t = Some ty1)); try discriminate;
        injection Hfirst as _ <-; exact Hkeep. }
  apply variable_redeclaration_rejected; [exact Hvalid |].
  apply visit_each_keeps_keys, Hkey.
Qed.

Lemma variable_redeclaration_later_rejected_witness :
  visit (VariableDeclarationContext (Sample.at_ 9 0) "$x" "string" None None)
    (visit_each visit [Sample.statement Sample.show_x;
                       Sample.statement Sample.declare_y]
       (analyse Sample.declare_x).2).2 =
    (inl (VariableRedeclared "$x"),
     (visit_each visit [Sample.statement Sample.show_x;
                        Sample.statement Sample.declare_y]
        (analyse Sample.declare_x).2).2).
Proof.
  refine (proj1 (variable_redeclaration_later_rejected (Sample.at_ 1 0) "$x"
    "chunk"
    (Some (Sample.expression_of 1 12
             (Sample.literal_term 1 12 Sample.chunk_literal))) None
    init None (analyse Sample.declare_x).2
    [Sample.statement Sample.show_x; Sample.statement Sample.declare_y]
    (Sample.at_ 9 0) "string" None None eq_refl)).
Defined.

(** X16: The parameters of a method stay in the symbol table after the method
    declaration, however it ends: a later variable declaration under the
    name of a parameter is rejected as a redeclaration. *)
Theorem parameter_names_stay_declared
    tok name rty ps b rs st p start ty e c :
  is_Some (signature_type p ps) -> valid_name p = true ->
  let st1 :=
    (visit (MethodDeclarationContext (Some tok) name rty ps b rs) st).2 in
  Dict.mem p (symbol_table st1) = true /\
  visit (VariableDeclarationContext start p ty e c) st1 =
    (inl (VariableRedeclared p), st1).
Proof.
  intros [pty Hp] Hvalid st1.
  assert (Hkey : Dict.mem p (symbol_table st1) = true).
  { subst st1. cbn [visit]. unfold visitMethodDeclaration.
    destruct (register_signatures_spec tok ps st)
      as (st0 & Hrun & _ & _ & _ & Hget).
    assert (Hstored : Dict.mem p (symbol_table st0) = true).
    { unfold Dict.mem. rewrite Hget, Hp. reflexivity. }
    unfold bind at 1. rewrite Hrun. unfold bind at 1. simpl.
    destruct (Dict.mem name (symbol_table st0)); [exact Hstored |].
    unfold bind at 1.
    pose proof (visit_keeps_keys b st0 p Hstored) as Hblock.
    destruct (visit b st0) as [[err | rb] st2]; [exact Hblock |].
    simpl in Hblock. destruct rs as [[rstart rexpr] |]; [| exact Hblock].
    unfold bind at 1.
    pose proof (visit_keeps_keys rexpr st2 p Hblock) as Hreturn.
    destruct (visit rexpr st2) as [[err | rt] st3]; [exact Hreturn |].
    destruct (decide (rt <> Some rty)); exact Hreturn. }
  split; [exact Hkey |].
  apply variable_redeclaration_rejected; assumption.
Qed.

Lemma parameter_names_stay_declared_witness :
  visit (VariableDeclarationContext (Sample.at_ 5 0) "$n" "string" None None)
    (visit (MethodDeclarationContext (Sample.at_ 1 0) "half" "chunk"
              [("$n", "chunk")] (RuleContext []) None) init).2 =
    (inl (VariableRedeclared "$n"),
     (visit (MethodDeclarationContext (Sample.at_ 1 0) "half" "chunk"
               [("$n", "chunk")] (RuleContext []) None) init).2).
Proof.
  refine (proj2 (parameter_names_stay_declared (Token 1 0) "half" "chunk"
    [("$n", "chunk")] (RuleContext []) None init "$n" (Sample.at_ 5 0)
    "string" None None _ eq_refl)).
  exists "chunk". reflexivity.
Defined.
